(** * L0 gradient-norm image smoothing: a shallow embedding

    This development embeds [image/L0ImageSmoothing/l0_image_smoothing.py]
    (PatternFlow) and checks the statements of its specification against it.

    - Python floats (the hyper-parameters [_lambda], [kappa], [beta_max] and
      the scalar [beta]) are IEEE binary64 values, with the arithmetic of
      [SpecFloat].
    - The arithmetic of TensorFlow's kernels ([tf.float32] and
      [tf.complex64] tensors, [tf.signal.fft2d]) is an interface,
      [Numerics]; the structural statements hold for every implementation
      of it, and [f32_numerics] is a binary32 implementation used to run
      the program on concrete images.
    - A NumPy array is a shape with a row-major buffer; a tensor of known
      rank is handled as nested lists, indexed [x !! i], [x !! i !! j], ...
    - Exceptions are values of [outcome]; the [while] loop takes fuel. *)

From Stdlib Require Import ZArith Bool Lia.
From Stdlib Require Import Floats.SpecFloat.
From stdpp Require Import base tactics option list.

Local Open Scope Z_scope.
Local Open Scope nat_scope.

(** ** Exceptions and outcomes *)

Inductive exn :=
  | ValueError
  | IndexError
  | UnboundLocalError
  | ZeroDivisionError
  | InvalidArgumentError.

Inductive outcome (A : Type) :=
  | Ok (a : A)
  | Raise (e : exn)
  | OutOfFuel.
Arguments Ok {A} a.
Arguments Raise {A} e.
Arguments OutOfFuel {A}.

#[global] Instance outcome_ret : MRet outcome := fun _ a => Ok a.
#[global] Instance outcome_bind : MBind outcome := fun _ _ f m =>
  match m with
  | Ok a => f a
  | Raise e => Raise e
  | OutOfFuel => OutOfFuel
  end.

Definition raises {A} (m : outcome A) : Prop := ∃ e, m = Raise e.
Definition raises_exn {A} (m : outcome A) (e : exn) : Prop :=
  match m with
  | Raise e' => e' = e
  | _ => False
  end.
Definition returns {A} (m : outcome A) : Prop := ∃ a, m = Ok a.

(** [x[k]] on a Python sequence, for a non-negative [k]. *)
Definition py_index {A} (l : list A) (k : nat) : outcome A :=
  match l !! k with
  | Some a => Ok a
  | None => Raise IndexError
  end.

(** The value a Python function hands back to its caller. *)
Inductive pyvalue (T : Type) :=
  | PyNone
  | PyTensor (x : T).
Arguments PyNone {T}.
Arguments PyTensor {T} x.

(** ** Python floats (binary64) *)

Module Py.
Definition float := spec_float.
Definition prec : Z := 53.
Definition emax : Z := 1024.
Definition of_Z (z : Z) : float := binary_normalize prec emax z 0 false.
Definition mul : float → float → float := SFmul prec emax.
Definition div : float → float → float := SFdiv prec emax.
Definition ltb : float → float → bool := SFltb.
(** The literal [a / b] of two integers, correctly rounded: [2e-2] is
    [lit 2 100] and [1e5] is [of_Z 100000]. *)
Definition lit (a b : Z) : float := div (of_Z a) (of_Z b).
Definition is_zero (x : float) : bool :=
  match x with
  | S754_zero _ => true
  | _ => false
  end.
End Py.

(** Python's [x / y] on floats, which refuses a zero divisor. *)
Definition py_truediv (x y : Py.float) : outcome Py.float :=
  if Py.is_zero y then Raise ZeroDivisionError else Ok (Py.div x y).

(** ** Tensors *)

Abbreviation tensor2 A := (list (list A)) (only parsing).
Abbreviation tensor3 A := (list (list (list A))) (only parsing).

Record ndarray (A : Type) := NdArray { shape : list nat; buffer : list A }.
Arguments NdArray {A} shape buffer.
Arguments shape {A} _.
Arguments buffer {A} _.

(** The buffer holds as many samples as the shape announces. *)
Definition wf_ndarray {A} (a : ndarray A) : Prop :=
  length (buffer a) = foldr Nat.mul 1 (shape a).

Fixpoint chunks {A} (n k : nat) (l : list A) : list (list A) :=
  match n with
  | 0 => []
  | S n' => take k l :: chunks n' k (drop k l)
  end.

(** The nested view [x[i][j][c]] of a row-major buffer of shape (N, M, C). *)
Definition view3 {A} (N M C : nat) (buf : list A) : tensor3 A :=
  chunks M C <$> chunks N (M * C) buf.

Definition map2 {A B} (f : A → B) (x : tensor2 A) : tensor2 B :=
  fmap (M:=list) f <$> x.
Definition map3 {A B} (f : A → B) (x : tensor3 A) : tensor3 B :=
  map2 f <$> x.

(** Element-wise binary operations of tensors of one shape. *)
Definition zip2 {A B C} (f : A → B → C) : tensor2 A → tensor2 B → tensor2 C :=
  zip_with (zip_with f).
Definition zip3 {A B C} (f : A → B → C) : tensor3 A → tensor3 B → tensor3 C :=
  zip_with (zip2 f).

Definition get2 {A} (x : tensor2 A) (i j : nat) : option A :=
  x !! i ≫= λ r, r !! j.
Definition get3 {A} (x : tensor3 A) (i j c : nat) : option A :=
  x !! i ≫= λ r, r !! j ≫= λ p, p !! c.

(** [x] has exactly the shape (N, M, C). *)
Definition has_shape2 {A} (N M : nat) (x : tensor2 A) : Prop :=
  length x = N ∧ Forall (λ r, length r = M) x.
Definition has_shape3 {A} (N M C : nat) (x : tensor3 A) : Prop :=
  length x = N ∧ Forall (has_shape2 M C) x.

(** The [.shape] of a rank-2 tensor held as rows; a tensor without rows
    keeps no record of its second extent. *)
Definition shape2 {A} (x : tensor2 A) : nat * nat :=
  (length x, from_option length 0 (head x)).

(** Python's slice [l[start:stop]]: a negative bound counts from the end,
    and both bounds are clipped to the sequence. *)
Definition clip_bound (len : nat) (k : Z) : nat :=
  Z.to_nat (if (k <? 0)%Z then Z.max (k + Z.of_nat len) 0
            else Z.min k (Z.of_nat len)).
Definition py_slice {A} (start stop : option Z) (l : list A) : list A :=
  let n := length l in
  let lo := from_option (clip_bound n) 0 start in
  let hi := from_option (clip_bound n) n stop in
  take (hi - lo) (drop lo l).

(** [tf.concat] of two rank-3 tensors. *)
Definition concat_axis0 {A} (x y : tensor3 A) : tensor3 A := x ++ y.
Definition concat_axis1 {A} (x y : tensor3 A) : tensor3 A := zip_with app x y.

(** [tf.roll]: the element at index [i] moves to [(i + shift) mod n]. *)
Definition roll_list {A} (shift : Z) (l : list A) : list A :=
  let n := Z.of_nat (length l) in
  if (n =? 0)%Z then l
  else let k := Z.to_nat ((- shift) mod n) in drop k l ++ take k l.
Definition tf_roll {A} (x : tensor2 A) (shift : Z) (axis : nat) : tensor2 A :=
  match axis with
  | 0 => roll_list shift x
  | _ => roll_list shift <$> x
  end.

(** *** Sparse tensors *)

(** [tf.convert_to_tensor] of a Python list of index rows: [k] rows of
    length [r] give the shape (k, r); the empty list gives the shape (0,);
    rows of different lengths are refused. *)
Definition indices_shape (rows : list (list Z)) : outcome (list nat) :=
  match rows with
  | [] => Ok [0]
  | r :: rest =>
      if forallb (λ r', length r' =? length r) rest
      then Ok [length rows; length r]
      else Raise ValueError
  end.

Record sparse_tensor (A : Type) := SparseTensor_ {
  sp_indices : list (list Z);
  sp_values : list A;
  sp_dense_shape : nat * nat
}.
Arguments SparseTensor_ {A} _ _ _.
Arguments sp_indices {A} _.
Arguments sp_values {A} _.
Arguments sp_dense_shape {A} _.

(** [tf.SparseTensor(indices, values, dense_shape)] for a rank-2 dense
    shape.  The constructor requires the indices to be a rank-2 tensor with
    one row per value and one column per dense dimension. *)
Definition SparseTensor {A} (indices : list (list Z)) (values : list A)
    (dense_shape : nat * nat) : outcome (sparse_tensor A) :=
  s ← indices_shape indices;
  match s with
  | [k; r] =>
      if (k =? length values) && (r =? 2)
      then Ok (SparseTensor_ indices values dense_shape)
      else Raise ValueError
  | _ => Raise ValueError
  end.

Definition index_in_bounds (dense_shape : nat * nat) (ix : list Z) : bool :=
  match ix with
  | [i; j] => (0 <=? i)%Z && (i <? Z.of_nat dense_shape.1)%Z
              && (0 <=? j)%Z && (j <? Z.of_nat dense_shape.2)%Z
  | _ => false
  end.

Fixpoint lex_ltb (a b : list Z) : bool :=
  match a, b with
  | x :: a', y :: b' => (x <? y)%Z || ((x =? y)%Z && lex_ltb a' b')
  | _, _ => false
  end.

Fixpoint strictly_increasing (l : list (list Z)) : bool :=
  match l with
  | a :: t => match t with
              | b :: _ => lex_ltb a b && strictly_increasing t
              | [] => true
              end
  | [] => true
  end.

Fixpoint sparse_value {A} (ix : list Z) (ixs : list (list Z)) (vs : list A)
    : option A :=
  match ixs, vs with
  | i :: ixs', v :: vs' =>
      if decide (i = ix) then Some v else sparse_value ix ixs' vs'
  | _, _ => None
  end.

(** [tf.sparse.to_dense(sp, default_value)] with its default
    [validate_indices=True]: every index lies inside the dense shape and
    the indices are in strictly increasing row-major order. *)
Definition sparse_to_dense {A} (sp : sparse_tensor A) (default_value : A)
    : outcome (tensor2 A) :=
  if forallb (index_in_bounds (sp_dense_shape sp)) (sp_indices sp)
     && strictly_increasing (sp_indices sp)
  then Ok ((λ i, (λ j, default default_value
                     (sparse_value [Z.of_nat i; Z.of_nat j]
                        (sp_indices sp) (sp_values sp)))
                 <$> seq 0 (sp_dense_shape sp).2)
           <$> seq 0 (sp_dense_shape sp).1)
  else Raise InvalidArgumentError.

(** [tf.where] on a rank-2 boolean tensor: the indices of the true
    entries, in row-major order. *)
Fixpoint where_row (i j : Z) (row : list bool) : list (list Z) :=
  match row with
  | [] => []
  | b :: r => (if b then [[i; j]] else []) ++ where_row i (j + 1) r
  end.
Fixpoint where_rows (i : Z) (rows : tensor2 bool) : list (list Z) :=
  match rows with
  | [] => []
  | r :: rs => where_row i 0 r ++ where_rows (i + 1) rs
  end.
Definition tf_where (cond : tensor2 bool) : list (list Z) := where_rows 0 cond.

(** [tf.tile(tf.expand_dims(x, 2), [1, 1, C])]. *)
Definition tile_channels {A} (C : nat) (x : tensor2 A) : tensor3 A :=
  map2 (replicate C) x.

(** [x[:, 0]] on a rank-2 tensor. *)
Definition column0 {A} (x : tensor2 A) : outcome (list A) :=
  mapM (λ r, match r !! 0 with
             | Some a => Ok a
             | None => Raise InvalidArgumentError
             end) x.

(** ** The arithmetic of the tensor kernels *)

Class Numerics := {
  real : Type;                          (* tf.float32 *)
  cplx : Type;                          (* tf.complex64 *)
  rzero : real;
  r_of_Z : Z → real;                    (* an integer sample or literal *)
  r_of_py : Py.float → real;            (* a Python float operand *)
  radd : real → real → real;
  rsub : real → real → real;
  rmul : real → real → real;
  rdiv : real → real → real;
  rneg : real → real;
  rpow2 : real → real;                  (* tf.math.pow(x, 2), x ** 2 *)
  rltb : real → real → bool;
  rleb : real → real → bool;
  c_of_Z : Z → cplx;                    (* cast of an integer to complex64 *)
  cabs : cplx → real;                   (* tf.abs *)
  fft2 : tensor2 cplx → tensor2 cplx;   (* the transform of one 2-D array *)
  (** Two samples denote the same number (or are the same sample). *)
  same_number : real → real → Prop
}.

(** What the statements below use of the arithmetic: adding to the zero
    of [tf.zeros_like] keeps the number, and [<] excludes [>=]. *)
Class NumericsLaws (NM : Numerics) : Prop := {
  same_number_refl : ∀ x, same_number x x;
  radd_zero_l : ∀ x, same_number (radd rzero x) x;
  rltb_not_rleb : ∀ x y, rltb x y = true → rleb y x = false
}.

(** [tf.signal.fft2d] transforms the two inner-most dimensions of its
    input: a rank-2 tensor as a whole, a rank-3 tensor one [x[i]] at a
    time. *)
Definition tf_signal_fft2d_rank2 {NM : Numerics} (x : tensor2 cplx) : tensor2 cplx :=
  fft2 x.
Definition tf_signal_fft2d_rank3 {NM : Numerics} (x : tensor3 cplx) : tensor3 cplx :=
  fft2 <$> x.

(** ** The program *)

Section Program.
Context {NM : Numerics}.

Definition _zero_pad_fxypsf (psf : tensor2 Z) (shape : nat * nat)
    : outcome (tensor2 Z) :=
  if decide ((shape2 psf).1 = 1) then
    row ← py_index psf 0;
    psf_padded ← SparseTensor [[0; 0]; [0; 1]]%Z row shape;
    sparse_to_dense psf_padded 0%Z
  else if decide ((shape2 psf).1 = 2) then
    col ← column0 psf;
    psf_padded ← SparseTensor [[0; 0]; [1; 0]]%Z col shape;
    sparse_to_dense psf_padded 0%Z
  else Raise UnboundLocalError.

(** The shift [-axis_sz // 2] of the loop over [psf.shape]: Python
    negates first and then takes the floor of the half. *)
Definition roll_shift (axis_sz : nat) : Z := ((- Z.of_nat axis_sz) `div` 2)%Z.

Definition _fxypsf_to_otf (psf : tensor2 Z) (target : ndarray cplx)
    : outcome (tensor2 cplx) :=
  d0 ← py_index (shape target) 0;
  d1 ← py_index (shape target) 1;
  let target_shape := (d0, d1) in
  psf_padded ← _zero_pad_fxypsf psf target_shape;
  let psf_padded :=
    foldl (λ acc '(axis, axis_sz), tf_roll acc (roll_shift axis_sz) axis)
          psf_padded
          (imap pair [(shape2 psf).1; (shape2 psf).2]) in
  let psf_padded := map2 c_of_Z psf_padded in
  let otf := tf_signal_fft2d_rank2 psf_padded in
  Ok otf.

(** *** The body of the loop *)

Definition zeros_like (x : tensor3 real) : tensor3 real := map3 (λ _, rzero) x.

(** Lines 140-149. *)
Definition compute_h (S : tensor3 real) (M : nat) : tensor3 real :=
  let h := zeros_like S in
  let first_hdiff :=
    zip3 rsub (py_slice (Some 1%Z) None <$> S)
              (py_slice None (Some (-1)%Z) <$> S) in
  let last_hdiff :=
    zip3 rsub (py_slice (Some 0%Z) (Some 1%Z) <$> S)
              (py_slice (Some (Z.of_nat M - 1)%Z) (Some (Z.of_nat M)) <$> S) in
  let h_diff := concat_axis1 first_hdiff last_hdiff in
  zip3 radd h h_diff.

(** Lines 153-162. *)
Definition compute_v (S : tensor3 real) (N : nat) : tensor3 real :=
  let v := zeros_like S in
  let first_vdiff :=
    zip3 rsub (py_slice (Some 1%Z) None S) (py_slice None (Some (-1)%Z) S) in
  let last_vdiff :=
    zip3 rsub (py_slice (Some 0%Z) (Some 1%Z) S)
              (py_slice (Some (Z.of_nat N - 1)%Z) (Some (Z.of_nat N)) S) in
  let v_diff := concat_axis0 first_vdiff last_vdiff in
  zip3 radd v v_diff.

(** [tf.math.reduce_sum(x, axis=2)]. *)
Definition reduce_sum_axis2 (x : tensor3 real) : tensor2 real :=
  map2 (foldl radd rzero) x.

(** Lines 165-166. *)
Definition compute_t (h v : tensor3 real) : tensor2 real :=
  let hv := zip3 radd (map3 rpow2 h) (map3 rpow2 v) in
  reduce_sum_axis2 hv.

(** Lines 170-177: the mask is rebuilt from the indices of [tf.where]
    through a sparse tensor. *)
Definition compute_t_masked (t : tensor2 real) (threshold : Py.float)
    (C : nat) : outcome (tensor3 bool) :=
  let indices_true := tf_where (map2 (λ x, rltb x (r_of_py threshold)) t) in
  let indices := indices_true in
  let values := (λ _, true) <$> seq 0 (length indices_true) in
  t_masked ← SparseTensor indices values (shape2 t);
  t_masked ← sparse_to_dense t_masked false;
  Ok (tile_channels C t_masked).

(** Lines 182-187: [x[mask] = 0] on the NumPy copy. *)
Definition mask_assign_zero (x : tensor3 real) (mask : tensor3 bool)
    : tensor3 real :=
  zip3 (λ a (b : bool), if b then rzero else a) x mask.

(** Lines 191-206. *)
Definition compute_numer2 (S h v : tensor3 real) (N M : nat) : tensor3 real :=
  let numer2 := zeros_like S in
  let numer2_h1 :=
    zip3 rsub (py_slice (Some (Z.of_nat M - 1)%Z) (Some (Z.of_nat M)) <$> h)
              (py_slice (Some 0%Z) (Some 1%Z) <$> h) in
  let numer2_h2 :=
    zip3 rsub (py_slice (Some 1%Z) None <$> h)
              (py_slice None (Some (-1)%Z) <$> h) in
  let numer2_h := concat_axis1 numer2_h1 (map3 rneg numer2_h2) in
  let numer2 := zip3 radd numer2 numer2_h in
  let numer2_v1 :=
    zip3 rsub (py_slice (Some (Z.of_nat N - 1)%Z) (Some (Z.of_nat N)) v)
              (py_slice (Some 0%Z) (Some 1%Z) v) in
  let numer2_v2 :=
    zip3 rsub (py_slice (Some 1%Z) None v) (py_slice None (Some (-1)%Z) v) in
  let numer2_v := concat_axis0 numer2_v1 (map3 rneg numer2_v2) in
  zip3 radd numer2 numer2_v.

(** [denom2] is a rank-2 tensor for one channel and is tiled to rank 3
    for more. *)
Inductive real_tensor :=
  | Rank2 (x : tensor2 real)
  | Rank3 (x : tensor3 real).

Definition scale_shift (beta : Py.float) (x : real) : real :=
  radd (r_of_Z 1) (rmul (r_of_py beta) x).

(** The variables bound by one pass through the body. *)
Record body_vars := BodyVars {
  bv_denom : real_tensor;
  bv_h_diff : tensor3 real;      (* h before the masking *)
  bv_v_diff : tensor3 real;      (* v before the masking *)
  bv_t : tensor2 real;
  bv_threshold : Py.float;
  bv_h : tensor3 real;
  bv_v : tensor3 real;
  bv_numer2 : tensor3 real
}.

(** The variables that live across iterations.  [st_entered] lists the
    values of [beta] with which the body was entered, oldest first. *)
Record loop_state := LoopState {
  st_S : tensor3 real;
  st_beta : Py.float;
  st_body : option body_vars;
  st_entered : list Py.float
}.

Section Loop.
Variables (N M C : nat) (_lambda kappa beta_max : Py.float)
          (denom2 : real_tensor).

(** Lines 132-208. *)
Definition loop_body (st : loop_state) : outcome loop_state :=
  let S := st_S st in
  let beta := st_beta st in
  let denom := match denom2 with
               | Rank2 d => Rank2 (map2 (scale_shift beta) d)
               | Rank3 d => Rank3 (map3 (scale_shift beta) d)
               end in
  let h := compute_h S M in
  let v := compute_v S N in
  let t := compute_t h v in
  threshold ← py_truediv _lambda beta;
  t_masked ← compute_t_masked t threshold C;
  let h' := mask_assign_zero h t_masked in
  let v' := mask_assign_zero v t_masked in
  let numer2 := compute_numer2 S h' v' N M in
  let beta' := beta_max in
  Ok {| st_S := S;
        st_beta := beta';
        st_body := Some (BodyVars denom h v t threshold h' v' numer2);
        st_entered := st_entered st ++ [beta] |}.

(** Line 131: [while beta < beta_max]. *)
Fixpoint while_loop (fuel : nat) (st : loop_state) : outcome loop_state :=
  if Py.ltb (st_beta st) beta_max then
    match fuel with
    | 0 => OutOfFuel
    | S fuel' => st' ← loop_body st; while_loop fuel' st'
    end
  else Ok st.
End Loop.

(** The variables bound before the loop (lines 110-130). *)
Record init_vars := InitVars {
  iv_N : nat; iv_M : nat; iv_C : nat;
  iv_S : tensor3 real;
  iv_img_tensor : ndarray cplx;
  iv_otf_fx : tensor2 cplx;
  iv_otf_fy : tensor2 cplx;
  iv_numer1 : tensor3 cplx;
  iv_denom2 : real_tensor;
  iv_beta : Py.float
}.

Definition unpack3 (s : list nat) : outcome (nat * nat * nat) :=
  match s with
  | [n; m; c] => Ok (n, m, c)
  | _ => Raise ValueError
  end.

Definition psf_fx : tensor2 Z := [[1; -1]]%Z.
Definition psf_fy : tensor2 Z := [[1]; [-1]]%Z.

Definition l0_init (img : ndarray Z) (_lambda : Py.float) : outcome init_vars :=
  '(N, M, C) ← unpack3 (shape img);
  let S := map3 (λ x, rdiv (r_of_Z x) (r_of_Z 255)) (view3 N M C (buffer img)) in
  let img_tensor := NdArray (shape img) (c_of_Z <$> buffer img) in
  otf_fx ← _fxypsf_to_otf psf_fx img_tensor;
  otf_fy ← _fxypsf_to_otf psf_fy img_tensor;
  let numer1 := tf_signal_fft2d_rank3 (view3 N M C (buffer img_tensor)) in
  let denom2 := zip2 radd (map2 (λ z, rpow2 (cabs z)) otf_fx)
                          (map2 (λ z, rpow2 (cabs z)) otf_fy) in
  let denom2 := if decide (1 < C) then Rank3 (tile_channels C denom2)
                else Rank2 denom2 in
  let beta := Py.mul (Py.of_Z 2) _lambda in
  Ok (InitVars N M C S img_tensor otf_fx otf_fy numer1 denom2 beta).

(** The run of the function up to its [return], with every variable it
    leaves behind. *)
Definition l0_run (fuel : nat) (img : ndarray Z)
    (_lambda kappa beta_max : Py.float) : outcome (init_vars * loop_state) :=
  iv ← l0_init img _lambda;
  st ← while_loop (iv_N iv) (iv_M iv) (iv_C iv) _lambda beta_max (iv_denom2 iv)
                  fuel (LoopState (iv_S iv) (iv_beta iv) None []);
  Ok (iv, st).

(** Lines 87-209; the [return] statement carries no value. *)
Definition l0_image_smoothing (fuel : nat) (img : ndarray Z)
    (_lambda kappa beta_max : Py.float) : outcome (pyvalue (tensor3 real)) :=
  _ ← l0_run fuel img _lambda kappa beta_max;
  Ok PyNone.
End Program.

(** ** A binary32 implementation of the kernels' arithmetic *)

Module F32.
Definition prec : Z := 24.
Definition emax : Z := 128.
Definition of_Z (z : Z) : spec_float := binary_normalize prec emax z 0 false.
Definition of_py (x : Py.float) : spec_float :=
  match x with
  | S754_finite s m e => binary_round prec emax s m e
  | _ => x
  end.
Definition add := SFadd prec emax.
Definition sub := SFsub prec emax.
Definition mul := SFmul prec emax.
Definition div := SFdiv prec emax.
Definition sqrt := SFsqrt prec emax.

Definition complex : Type := spec_float * spec_float.
Definition cadd (x y : complex) : complex := (add x.1 y.1, add x.2 y.2).
Definition cmul (x y : complex) : complex :=
  (sub (mul x.1 y.1) (mul x.2 y.2), add (mul x.1 y.2) (mul x.2 y.1)).
Definition c_of_Z (z : Z) : complex := (of_Z z, of_Z 0).
Definition cabs (x : complex) : spec_float :=
  sqrt (add (mul x.1 x.1) (mul x.2 x.2)).

(** The factor exp(-2 pi i k / n), for the extents whose factors are
    exact (1, 2 and 4); no other extent is transformed by this
    implementation, which answers NaN there. *)
Definition twiddle (n k : nat) : complex :=
  match n with
  | 1 => c_of_Z 1
  | 2 => if Nat.even k then c_of_Z 1 else c_of_Z (-1)
  | 4 => match k `mod` 4 with
         | 0 => c_of_Z 1
         | 1 => (of_Z 0, of_Z (-1))
         | 2 => c_of_Z (-1)
         | _ => (of_Z 0, of_Z 1)
         end
  | _ => (S754_nan, S754_nan)
  end.

Definition csum (l : list complex) : complex := foldl cadd (c_of_Z 0) l.

(** The discrete Fourier transform of one 2-D array, by its definition:
    X[u][v] = sum over m, n of x[m][n] w_H^(u m) w_W^(v n). *)
Definition dft2 (x : list (list complex)) : list (list complex) :=
  let '(H, W) := shape2 x in
  (λ u, (λ v,
      csum (imap (λ m row,
        csum (imap (λ n a,
          cmul a (cmul (twiddle H (u * m)) (twiddle W (v * n)))) row)) x))
    <$> seq 0 W) <$> seq 0 H.

Definition same_number (x y : spec_float) : Prop := x = y ∨ SFeqb x y = true.
End F32.

(** The kernels' arithmetic in binary32, rounding to nearest even;
    [x ** 2] is the product [x * x]. *)
#[global] Instance f32_numerics : Numerics := {|
  real := spec_float;
  cplx := F32.complex;
  rzero := S754_zero false;
  r_of_Z := F32.of_Z;
  r_of_py := F32.of_py;
  radd := F32.add;
  rsub := F32.sub;
  rmul := F32.mul;
  rdiv := F32.div;
  rneg := SFopp;
  rpow2 := λ x, F32.mul x x;
  rltb := SFltb;
  rleb := SFleb;
  c_of_Z := F32.c_of_Z;
  cabs := F32.cabs;
  fft2 := F32.dft2;
  same_number := F32.same_number
|}.

(** ** The specification's wording, for comparison with the program *)

(** The continuation schedule as the specification and the docstring word
    it: beta starts at [2 * _lambda] and is multiplied by [kappa] after
    each pass, while [beta < beta_max].  The list holds the value of beta
    at each pass. *)
Fixpoint spec_beta_schedule (fuel : nat) (beta kappa beta_max : Py.float)
    : option (list Py.float) :=
  if Py.ltb beta beta_max then
    match fuel with
    | 0 => None
    | S fuel' =>
        (beta ::.) <$> spec_beta_schedule fuel' (Py.mul beta kappa) kappa beta_max
    end
  else Some [].

(** The kernel embedded at the top-left corner of a zero (H, W) array. *)
Definition spec_embed (psf : tensor2 Z) (H W : nat) : tensor2 Z :=
  (λ i, (λ j, default 0%Z (get2 psf i j)) <$> seq 0 W) <$> seq 0 H.

(** The specification's shift, [-floor(axis_length / 2)]. *)
Definition spec_roll_shift (axis_sz : nat) : Z := (- (Z.of_nat axis_sz `div` 2))%Z.

(** The frequency response as the specification words it. *)
Definition spec_otf {NM : Numerics} (psf : tensor2 Z) (H W : nat) : tensor2 cplx :=
  let x := spec_embed psf H W in
  let x := tf_roll x (spec_roll_shift (shape2 psf).1) 0 in
  let x := tf_roll x (spec_roll_shift (shape2 psf).2) 1 in
  fft2 (map2 c_of_Z x).

(** Channel [c] of an image, as a 2-D array over the spatial axes. *)
Definition channel_plane {A} (d : A) (c : nat) (x : tensor3 A) : tensor2 A :=
  map2 (λ p, default d (p !! c)) x.

(** The channels [planes] put back into an (N, M, C) tensor. *)
Definition stack_channels {A} (d : A) (N M : nat) (planes : list (tensor2 A))
    : tensor3 A :=
  (λ i, (λ j, (λ p, default d (get2 p i j)) <$> planes) <$> seq 0 M) <$> seq 0 N.

(** The transform of every channel over the spatial axes (H, W), which is
    what the specification calls FFT2D of an image. *)
Definition spec_fft2d_spatial {NM : Numerics} (N M C : nat) (x : tensor3 cplx)
    : tensor3 cplx :=
  stack_channels (c_of_Z 0) N M
    ((λ c, fft2 (channel_plane (c_of_Z 0) c x)) <$> seq 0 C).

Module F32Spec.
Import F32.

Definition conj (x : complex) : complex := (x.1, SFopp x.2).
Definition cscale (k : spec_float) (x : complex) : complex :=
  (mul k x.1, mul k x.2).
Definition cdiv_real (x : complex) (d : spec_float) : complex :=
  (div x.1 d, div x.2 d).

(** The inverse transform of one 2-D array, by its definition. *)
Definition idft2 (x : list (list complex)) : list (list complex) :=
  let '(H, W) := shape2 x in
  (λ u, (λ v,
      cdiv_real
        (csum (imap (λ m row,
           csum (imap (λ n a,
             cmul a (cmul (conj (twiddle H (u * m)))
                          (conj (twiddle W (v * n))))) row)) x))
        (of_Z (Z.of_nat (H * W))))
    <$> seq 0 W) <$> seq 0 H.

(** The image subproblem as the specification words it, per channel:
    the real part of
    IFFT2D((img_fft + beta FFT2D(numer2)) / (1 + beta denom2)),
    with [img_fft] the transform of the original image. *)
Definition spec_S_new (N M C : nat) (img : tensor3 Z) (beta : Py.float)
    (numer2 : tensor3 spec_float) (denom2 : list (list spec_float))
    : tensor3 spec_float :=
  let b := of_py beta in
  stack_channels (S754_zero false) N M
    ((λ c,
       let img_fft := dft2 (channel_plane (c_of_Z 0) c (map3 c_of_Z img)) in
       let num_fft :=
         dft2 (map2 (λ r, (r, of_Z 0))
                    (channel_plane (S754_zero false) c numer2)) in
       let numerator := zip2 cadd img_fft (map2 (cscale b) num_fft) in
       let denominator := map2 (λ d, add (of_Z 1) (mul b d)) denom2 in
       map2 fst (idft2 (zip2 cdiv_real numerator denominator)))
     <$> seq 0 C).
End F32Spec.

(** ** Inputs of the worked examples *)

Definition default_lambda : Py.float := Py.lit 2 100.
Definition default_kappa : Py.float := Py.of_Z 2.
Definition default_beta_max : Py.float := Py.of_Z 100000.

(** 2 x 2 images of one channel. *)
Definition img_flat0 : ndarray Z := NdArray [2; 2; 1] [0; 0; 0; 0]%Z.
Definition img_flat255 : ndarray Z := NdArray [2; 2; 1] [255; 255; 255; 255]%Z.
Definition img_checker : ndarray Z := NdArray [2; 2; 1] [0; 255; 255; 0]%Z.
Definition img_ramp : ndarray Z := NdArray [2; 2; 1] [1; 2; 3; 4]%Z.
(** A 2 x 2 image without channels, and a single pixel. *)
Definition img_no_channel : ndarray Z := NdArray [2; 2; 0] [].
Definition img_pixel : ndarray Z := NdArray [1; 1; 1] [7]%Z.
(** A kernel of shape (2, 2). *)
Definition psf_2x2 : tensor2 Z := [[1; 5]; [-1; 7]]%Z.
Definition target_2x2 : ndarray F32.complex :=
  NdArray [2; 2; 1] (F32.c_of_Z <$> [0; 0; 0; 0]%Z).


(** ** Auxiliary definitions of the proofs *)

(** The circular forward difference of a sequence, in the shape in which
    [compute_h] (on the pixels of a row) and [compute_v] (on the rows)
    build it: the zeros of [tf.zeros_like], plus the concatenation of the
    differences of neighbours and of the wrap-around difference. *)
Definition circular_diff {X} (add sub : X → X → X) (zero : X → X)
    (n : nat) (l : list X) : list X :=
  zip_with add (zero <$> l)
    (zip_with sub (py_slice (Some 1%Z) None l) (py_slice None (Some (-1)%Z) l)
     ++ zip_with sub (py_slice (Some 0%Z) (Some 1%Z) l)
          (py_slice (Some (Z.of_nat n - 1)%Z) (Some (Z.of_nat n)) l)).

(** The zeros [tf.zeros_like] puts under one pixel. *)
Definition zero_pixel {NM : Numerics} (p : list real) : list real :=
  (λ _, rzero) <$> p.

(** The index after [j] on a circle of [n] positions. *)
Definition next_index (n j : nat) : nat := if decide (j + 1 < n) then j + 1 else 0.

(** The boolean tensor [t < threshold] of line 170. *)
Definition below_threshold {NM : Numerics} (t : tensor2 real)
    (threshold : Py.float) : tensor2 bool :=
  map2 (λ x, rltb x (r_of_py threshold)) t.

(** [h] and [v] are the circular forward differences of [S] along the
    columns and along the rows: the neighbour's sample minus the sample,
    with the first column (row) as the neighbour of the last. *)
Definition circular_forward_differences {NM : Numerics}
    (S h v : tensor3 real) (N M : nat) : Prop :=
  (∀ i j c a b, j + 1 < M →
     get3 S i j c = Some a → get3 S i (j + 1) c = Some b →
     ∃ x, get3 h i j c = Some x ∧ same_number x (rsub b a)) ∧
  (∀ i c a b,
     get3 S i (M - 1) c = Some a → get3 S i 0 c = Some b →
     ∃ x, get3 h i (M - 1) c = Some x ∧ same_number x (rsub b a)) ∧
  (∀ i j c a b, i + 1 < N →
     get3 S i j c = Some a → get3 S (i + 1) j c = Some b →
     ∃ x, get3 v i j c = Some x ∧ same_number x (rsub b a)) ∧
  (∀ j c a b,
     get3 S (N - 1) j c = Some a → get3 S 0 j c = Some b →
     ∃ x, get3 v (N - 1) j c = Some x ∧ same_number x (rsub b a)).

(** The samples 1, 2 / 3, 4 as a 2 x 2 tensor of one channel. *)
Definition S_ramp : tensor3 spec_float :=
  map3 F32.of_Z [[[1]; [2]]; [[3]; [4]]]%Z.

(** The gradient energy of the specification at one pixel: the sum over
    the channels of [h ** 2 + v ** 2], accumulated from zero. *)
Definition pixel_energy {NM : Numerics} (hp vp : list real) : real :=
  foldl radd rzero (zip_with radd (rpow2 <$> hp) (rpow2 <$> vp)).

(** [t] holds the gradient energy of every pixel of [h], [v]. *)
Definition energy_of {NM : Numerics} (t : tensor2 real) (h v : tensor3 real)
    : Prop :=
  ∀ i j hp vp, get2 h i j = Some hp → get2 v i j = Some vp →
    get2 t i j = Some (pixel_energy hp vp).

(** [h'], [v'] are [h], [v] after the hard threshold: zero in all [C]
    channels of the pixels whose entry of [t] is below the threshold, and
    the samples of [h], [v] at the pixels whose entry is at or above it. *)
Definition hard_thresholded {NM : Numerics} (t : tensor2 real)
    (threshold : real) (C : nat) (h v h' v' : tensor3 real) : Prop :=
  ∀ i j tij, get2 t i j = Some tij →
    (rltb tij threshold = true →
       ∀ c, c < C → get3 h' i j c = Some rzero ∧ get3 v' i j c = Some rzero) ∧
    (rleb threshold tij = true →
       ∀ c, get3 h' i j c = get3 h i j c ∧ get3 v' i j c = get3 v i j c).

(** What one completed pass through the body leaves behind, for the
    gradient subproblem: [h], [v] before the masking are the differences
    of the [S] the pass started with, [t] is their energy, the threshold
    is [_lambda / beta], and [h], [v] after the masking are the hard
    threshold of the differences. *)
Definition gradient_subproblem_solved {NM : Numerics} (N M C : nat)
    (_lambda : Py.float) (st st' : loop_state) : Prop :=
  ∃ bv, st_body st' = Some bv ∧
    bv_h_diff bv = compute_h (st_S st) M ∧
    bv_v_diff bv = compute_v (st_S st) N ∧
    bv_threshold bv = Py.div _lambda (st_beta st) ∧
    energy_of (bv_t bv) (bv_h_diff bv) (bv_v_diff bv) ∧
    hard_thresholded (bv_t bv) (r_of_py (bv_threshold bv)) C
      (bv_h_diff bv) (bv_v_diff bv) (bv_h bv) (bv_v bv).

(** The normalised samples of a 2 x 2 image that is black except for its
    last pixel, and the loop state of the first pass over it. *)
Definition S_corner : tensor3 spec_float :=
  map3 (λ x, F32.div (F32.of_Z x) (F32.of_Z 255)) [[[0]; [0]]; [[0]; [255]]]%Z.
Definition st_corner : loop_state :=
  LoopState S_corner (Py.mul (Py.of_Z 2) default_lambda) None [].
Definition st_corner' : loop_state :=
  match loop_body 2 2 1 default_lambda default_beta_max (Rank2 []) st_corner with
  | Ok st' => st'
  | _ => st_corner
  end.

(** The shapes on which the program fails before its loop: not of rank
    3, or of rank 3 without rows or without columns. *)
Definition malformed_shape (s : list nat) : Prop :=
  length s ≠ 3 ∨ ∃ N M C, s = [N; M; C] ∧ (N = 0 ∨ M = 0).

(** The exception it fails with: [ValueError] from unpacking the shape,
    [InvalidArgumentError] from densifying the padded kernel. *)
Definition malformed_exn (s : list nat) : exn :=
  if decide (length s = 3) then InvalidArgumentError else ValueError.

(** An image without rows. *)
Definition img_no_row : ndarray Z := NdArray [0; 3; 1] [].

(** The kernel shapes the converter accepts: one row of two values, or
    two rows of at least one value. *)
Definition kernel_accepted (r c : nat) : Prop :=
  (r = 1 ∧ c = 2) ∨ (r = 2 ∧ 1 ≤ c).

(** The padded kernel after the two rolls of [_fxypsf_to_otf]. *)
Definition rolled_kernel (psf : tensor2 Z) (H W : nat) : tensor2 Z :=
  tf_roll (tf_roll (spec_embed psf H W) (-1) 0) (-1) 1.

(** The variables [l0_init] binds for an image of shape (N, M, C) with at
    least two rows and two columns. *)
Definition init_vars_of {NM : Numerics} (img : ndarray Z) (_lambda : Py.float)
    (N M C : nat) : init_vars :=
  let otf_fx := fft2 (map2 c_of_Z (rolled_kernel psf_fx N M)) in
  let otf_fy := fft2 (map2 c_of_Z (rolled_kernel psf_fy N M)) in
  let denom2 := zip2 radd (map2 (λ z, rpow2 (cabs z)) otf_fx)
                          (map2 (λ z, rpow2 (cabs z)) otf_fy) in
  InitVars N M C
    (map3 (λ x, rdiv (r_of_Z x) (r_of_Z 255)) (view3 N M C (buffer img)))
    (NdArray (shape img) (c_of_Z <$> buffer img))
    otf_fx otf_fy
    (fft2 <$> view3 N M C (c_of_Z <$> buffer img))
    (if decide (1 < C) then Rank3 (tile_channels C denom2) else Rank2 denom2)
    (Py.mul (Py.of_Z 2) _lambda).

(** The variables of the worked image 1, 2 / 3, 4 after [l0_init]. *)
Definition iv_ramp : init_vars :=
  init_vars_of (NM:=f32_numerics) img_ramp default_lambda 2 2 1.

(** The adjoint of the circular forward difference of a sequence, in the
    shape in which [compute_numer2] builds it along the columns (on the
    pixels of a row) and along the rows: the wrap-around difference first,
    then the negated differences of neighbours. *)
Definition adjoint_diff {X} (sub : X → X → X) (neg : X → X)
    (n : nat) (l : list X) : list X :=
  zip_with sub (py_slice (Some (Z.of_nat n - 1)%Z) (Some (Z.of_nat n)) l)
               (py_slice (Some 0%Z) (Some 1%Z) l)
  ++ (neg <$> zip_with sub (py_slice (Some 1%Z) None l)
                (py_slice None (Some (-1)%Z) l)).

(** The index before [j] on a circle of [n] positions. *)
Definition prev_index (n j : nat) : nat := if decide (j = 0) then n - 1 else j - 1.

(** The entry of the adjoint difference at position [k], from the sample
    [cur] at [k] and the sample [prev] before it on the circle. *)
Definition adjoint_term {NM : Numerics} (k : nat) (prev cur : real) : real :=
  if decide (k = 0) then rsub prev cur else rneg (rsub cur prev).

(** [numer2] is, sample by sample, zero plus the adjoint difference of [h]
    along the columns plus the adjoint difference of [v] along the rows. *)
Definition adjoint_differences {NM : Numerics} (N M : nat)
    (h v numer2 : tensor3 real) : Prop :=
  ∀ i j c hc hp vc vp,
    get3 h i j c = Some hc → get3 h i (prev_index M j) c = Some hp →
    get3 v i j c = Some vc → get3 v (prev_index N i) j c = Some vp →
    get3 numer2 i j c
      = Some (radd (radd rzero (adjoint_term j hp hc)) (adjoint_term i vp vc)).

(** The thresholded fields of the worked pass over [S_corner]. *)
Definition h_corner : tensor3 spec_float :=
  map3 F32.of_Z [[[0]; [0]]; [[1]; [-1]]]%Z.
Definition v_corner : tensor3 spec_float :=
  map3 F32.of_Z [[[0]; [1]]; [[0]; [-1]]]%Z.

(** Some entry of [t] is below the threshold. *)
Definition some_pixel_below {NM : Numerics} (t : tensor2 real)
    (threshold : Py.float) : Prop :=
  ∃ i j tij, get2 t i j = Some tij ∧ rltb tij (r_of_py threshold) = true.

(** The variables of a completed pass all have the shape of the image. *)
Definition body_shapes {NM : Numerics} (N M C : nat) (bv : body_vars) : Prop :=
  has_shape3 N M C (bv_h_diff bv) ∧ has_shape3 N M C (bv_v_diff bv) ∧
  has_shape2 N M (bv_t bv) ∧
  has_shape3 N M C (bv_h bv) ∧ has_shape3 N M C (bv_v bv) ∧
  has_shape3 N M C (bv_numer2 bv).

(** A hyper-parameter [_lambda] of zero, and the state a run over
    [img_ramp] ends in when [beta_max] equals the initial [beta]. *)
Definition zero_lambda : Py.float := Py.of_Z 0.
Definition beta_max_at_start : Py.float := Py.mul (Py.of_Z 2) default_lambda.
Definition st_ramp_untouched : loop_state :=
  LoopState (iv_S iv_ramp) (iv_beta iv_ramp) None [].

(** The state the run over [img_ramp] ends in with the default
    parameters. *)
Definition st_ramp' : loop_state :=
  match loop_body 2 2 1 default_lambda default_beta_max (iv_denom2 iv_ramp)
          st_ramp_untouched with
  | Ok st' => st'
  | _ => st_ramp_untouched
  end.

(** A 2 x 2 image of three channels and its variables after [l0_init]. *)
Definition img_rgb : ndarray Z :=
  NdArray [2; 2; 3] [1; 2; 3; 4; 5; 6; 7; 8; 9; 10; 11; 12]%Z.
Definition iv_rgb : init_vars :=
  init_vars_of (NM:=f32_numerics) img_rgb default_lambda 2 2 3.

(** The state of the loop after a run: [S] is the normalised image; the
    body was entered once, with the initial [beta], when that was below
    [beta_max], and then [beta] is [beta_max]; otherwise it was not
    entered, [beta] is the initial one and no variable of the body is
    bound. *)
Definition state_after_run {NM : Numerics} (beta_max : Py.float)
    (iv : init_vars) (st : loop_state) : Prop :=
  st_S st = iv_S iv ∧
  if Py.ltb (iv_beta iv) beta_max
  then st_entered st = [iv_beta iv] ∧ st_beta st = beta_max
  else st_entered st = [] ∧ st_beta st = iv_beta iv ∧ st_body st = None.

(** [denom2] holds the same value in every channel. *)
Definition same_in_every_channel {NM : Numerics} (C : nat)
    (denom2 : real_tensor) : Prop :=
  match denom2 with
  | Rank3 d => 1 < C ∧ ∀ i j c c', c < C → c' < C → get3 d i j c = get3 d i j c'
  | Rank2 _ => C ≤ 1
  end.

(** Every sample of [S] is [a]. *)
Definition flat_tensor {A} (S : tensor3 A) (a : A) : Prop :=
  ∀ i j c x, get3 S i j c = Some x → x = a.

(** A binary32 value that is a number (zero or finite), not an infinity
    or NaN. *)
Definition f32_finite (a : spec_float) : Prop :=
  match a with
  | S754_zero _ | S754_finite _ _ _ => True
  | _ => False
  end.

(** What a pass over a flat image leaves behind: [S] as it was, and [h],
    [v], [numer2] of the image's shape with every sample +0. *)
Definition zero_gradient_pass (N M C : nat)
    (st st' : loop_state (NM:=f32_numerics)) : Prop :=
  st_S st' = st_S st ∧
  ∃ bv, st_body st' = Some bv ∧ body_shapes N M C bv ∧
    flat_tensor (bv_h bv) (S754_zero false) ∧
    flat_tensor (bv_v bv) (S754_zero false) ∧
    flat_tensor (bv_numer2 bv) (S754_zero false).

(** The loop state of the first pass over the normalised flat image of
    value 255. *)
Definition S_flat1 : tensor3 spec_float :=
  map3 F32.of_Z [[[1]; [1]]; [[1]; [1]]]%Z.
Definition st_flat1 : loop_state :=
  LoopState S_flat1 (Py.mul (Py.of_Z 2) default_lambda) None [].

(** The outcomes [l0_image_smoothing] can have. *)
Definition smoothing_outcome {T} (o : outcome (pyvalue T)) : Prop :=
  o = Ok PyNone ∨ o = Raise ValueError ∨ o = Raise InvalidArgumentError
  ∨ o = Raise ZeroDivisionError.

(** [y] is [x] shifted circularly by one position towards the origin on
    both axes of an (H, W) array. *)
Definition shifted_by_one {A} (H W : nat) (x y : tensor2 A) : Prop :=
  has_shape2 H W y ∧
  ∀ i j, i < H → j < W →
    get2 y i j = get2 x (next_index H i) (next_index W j).

(** * Properties *)

(** ** Slices *)

Section Slices.
Context {A : Type}.
Implicit Types l : list A.

Lemma py_slice_from_1 l : py_slice (Some 1%Z) None l = drop 1 l.
Proof.
  unfold py_slice, clip_bound; simpl. destruct l as [|a l]; [done|].
  replace (Z.to_nat (Z.min 1 (Z.of_nat (length (a :: l))))) with 1
    by (simpl; lia).
  apply take_ge. rewrite length_drop. lia.
Qed.

Lemma py_slice_to_last l : py_slice None (Some (-1)%Z) l = take (length l - 1) l.
Proof.
  unfold py_slice, clip_bound; simpl. rewrite Nat.sub_0_r. f_equal. lia.
Qed.

Lemma py_slice_0_1 l : py_slice (Some 0%Z) (Some 1%Z) l = take 1 l.
Proof.
  unfold py_slice, clip_bound; simpl. destruct l; simpl; [done|].
  replace (Z.to_nat (Z.min 1 (Z.of_nat (S (length l))))) with 1 by lia.
  done.
Qed.

Lemma py_slice_last n l :
  length l = n →
  py_slice (Some (Z.of_nat n - 1)%Z) (Some (Z.of_nat n)) l = drop (n - 1) l.
Proof.
  intros <-. unfold py_slice, clip_bound; simpl.
  destruct (Z.ltb_spec (Z.of_nat (length l) - 1) 0) as [Hn|Hn];
    destruct (Z.ltb_spec (Z.of_nat (length l)) 0) as [Hm|Hm]; try lia.
  - assert (length l = 0) as Hl by lia. rewrite Hl.
    destruct l; [done|discriminate].
  - replace (Z.to_nat (Z.min (Z.of_nat (length l) - 1) (Z.of_nat (length l))))
      with (length l - 1) by lia.
    apply take_ge. rewrite length_drop. lia.
Qed.
End Slices.

(** ** Circular differences *)

Section CircularDiff.
Context {X : Type} (add sub : X → X → X) (zero : X → X).

Lemma circular_diff_unfold n l :
  length l = n →
  circular_diff add sub zero n l =
    zip_with add (zero <$> l)
      (zip_with sub (drop 1 l) (take (n - 1) l)
       ++ zip_with sub (take 1 l) (drop (n - 1) l)).
Proof.
  intros Hn. unfold circular_diff.
  by rewrite py_slice_from_1, py_slice_to_last, py_slice_0_1,
    (py_slice_last n l Hn), Hn.
Qed.

Lemma length_circular_diff n l :
  length l = n → length (circular_diff add sub zero n l) = n.
Proof.
  intros Hn. rewrite circular_diff_unfold by done.
  rewrite length_zip_with, length_fmap, length_app, !length_zip_with,
    !length_drop, !length_take. lia.
Qed.

Lemma lookup_circular_diff n l j a b :
  length l = n →
  l !! j = Some a → l !! next_index n j = Some b →
  circular_diff add sub zero n l !! j = Some (add (zero a) (sub b a)).
Proof.
  intros Hn Ha Hb. rewrite circular_diff_unfold by done.
  assert (j < n) as Hj by (rewrite <-Hn; by eapply lookup_lt_Some).
  rewrite lookup_zip_with, list_lookup_fmap, Ha. simpl.
  unfold next_index in Hb. destruct (decide (j + 1 < n)) as [Hlt|Hge].
  - rewrite lookup_app_l
      by (rewrite length_zip_with, length_drop, length_take; lia).
    rewrite lookup_zip_with, lookup_drop, lookup_take_lt by lia.
    replace (1 + j) with (j + 1) by lia. by rewrite Hb, Ha.
  - assert (j = n - 1) as -> by lia.
    rewrite lookup_app_r
      by (rewrite length_zip_with, length_drop, length_take; lia).
    rewrite length_zip_with, length_drop, length_take.
    replace (n - 1 - (length l - 1) `min` ((n - 1) `min` length l)) with 0 by lia.
    rewrite lookup_zip_with, lookup_take_lt, lookup_drop by lia.
    replace (n - 1 + 0) with (n - 1) by lia. by rewrite Hb, Ha.
Qed.
End CircularDiff.

(** ** Shapes and lookups *)

Lemma has_shape2_lookup {A} (N M : nat) (x : tensor2 A) :
  has_shape2 N M x ↔
  length x = N ∧ ∀ i r, x !! i = Some r → length r = M.
Proof. unfold has_shape2. by rewrite Forall_lookup. Qed.

Lemma has_shape3_lookup {A} (N M C : nat) (x : tensor3 A) :
  has_shape3 N M C x ↔
  length x = N ∧ ∀ i r, x !! i = Some r → has_shape2 M C r.
Proof. unfold has_shape3. by rewrite Forall_lookup. Qed.

Lemma get3_Some {A} (x : tensor3 A) i j c a :
  get3 x i j c = Some a ↔
  ∃ r p, x !! i = Some r ∧ r !! j = Some p ∧ p !! c = Some a.
Proof.
  unfold get3. split.
  - destruct (x !! i) as [r|]; simpl; [|done].
    destruct (r !! j) as [p|] eqn:Hp; simpl; [|done]. eauto.
  - by intros (r & p & -> & Hp & Ha); simpl; rewrite Hp.
Qed.

Lemma get2_Some {A} (x : tensor2 A) i j a :
  get2 x i j = Some a ↔ ∃ r, x !! i = Some r ∧ r !! j = Some a.
Proof.
  unfold get2. split.
  - destruct (x !! i) as [r|]; simpl; [eauto|done].
  - by intros (r & -> & Ha).
Qed.

(** ** The finite differences of the gradient subproblem *)

Section Differences.
Context {NM : Numerics}.

Lemma compute_v_circular (S : tensor3 real) (N : nat) :
  compute_v S N =
    circular_diff (zip2 radd) (zip2 rsub) (map2 (λ _, rzero)) N S.
Proof. reflexivity. Qed.

Lemma compute_h_row (S : tensor3 real) (M i : nat) :
  compute_h S M !! i =
    circular_diff (zip_with radd) (zip_with rsub) zero_pixel M <$> S !! i.
Proof.
  unfold compute_h, zip3, concat_axis1, zeros_like, map3, circular_diff.
  rewrite !lookup_zip_with, !list_lookup_fmap.
  by destruct (S !! i).
Qed.

Lemma lookup_pixel_diff (a b : list real) c x y :
  a !! c = Some x → b !! c = Some y →
  zip_with radd (zero_pixel a) (zip_with rsub b a) !! c
    = Some (radd rzero (rsub y x)).
Proof.
  intros Hx Hy. unfold zero_pixel.
  by rewrite !lookup_zip_with, list_lookup_fmap, Hx, Hy.
Qed.

Lemma length_pixel_diff (a b : list real) C :
  length a = C → length b = C →
  length (zip_with radd (zero_pixel a) (zip_with rsub b a)) = C.
Proof.
  intros. unfold zero_pixel.
  rewrite !length_zip_with, length_fmap. lia.
Qed.

Lemma lookup_row_diff (r s : list (list real)) j p q :
  r !! j = Some p → s !! j = Some q →
  zip2 radd (map2 (λ _, rzero) r) (zip2 rsub s r) !! j
    = Some (zip_with radd (zero_pixel p) (zip_with rsub q p)).
Proof.
  intros Hp Hq. unfold zip2, map2.
  by rewrite !lookup_zip_with, list_lookup_fmap, Hp, Hq.
Qed.

(** [h] at (i, j, c) is the zero of [tf.zeros_like] plus the difference
    of the sample after (i, j, c) on the circle of a row and the sample
    at it. *)
Lemma get3_compute_h (S : tensor3 real) N M C i j c a b :
  has_shape3 N M C S →
  get3 S i j c = Some a → get3 S i (next_index M j) c = Some b →
  get3 (compute_h S M) i j c = Some (radd rzero (rsub b a)).
Proof.
  rewrite has_shape3_lookup. intros [HN Hrows].
  rewrite !get3_Some. intros (r & p & Hr & Hp & Ha) (r' & q & Hr' & Hq & Hb).
  assert (r' = r) as -> by congruence.
  destruct (Hrows _ _ Hr) as [HM _].
  exists (circular_diff (zip_with radd) (zip_with rsub) zero_pixel M r),
    (zip_with radd (zero_pixel p) (zip_with rsub q p)).
  split; [by rewrite compute_h_row, Hr|].
  split; [by apply lookup_circular_diff|].
  by apply lookup_pixel_diff.
Qed.

Lemma get3_compute_v (S : tensor3 real) N M C i j c a b :
  has_shape3 N M C S →
  get3 S i j c = Some a → get3 S (next_index N i) j c = Some b →
  get3 (compute_v S N) i j c = Some (radd rzero (rsub b a)).
Proof.
  rewrite has_shape3_lookup. intros [HN Hrows].
  rewrite !get3_Some. intros (r & p & Hr & Hp & Ha) (s & q & Hs & Hq & Hb).
  exists (zip2 radd (map2 (λ _, rzero) r) (zip2 rsub s r)),
    (zip_with radd (zero_pixel p) (zip_with rsub q p)).
  split; [by rewrite compute_v_circular; apply lookup_circular_diff|].
  split; [by apply lookup_row_diff|].
  by apply lookup_pixel_diff.
Qed.

Lemma has_shape3_compute_h (S : tensor3 real) N M C :
  has_shape3 N M C S → has_shape3 N M C (compute_h S M).
Proof.
  intros HS. pose proof HS as [HN Hrows]%has_shape3_lookup.
  apply has_shape3_lookup. split.
  { unfold compute_h, zip3, concat_axis1, zeros_like, map3.
    rewrite !length_zip_with, !length_fmap. lia. }
  intros i hr. rewrite compute_h_row.
  destruct (S !! i) as [r|] eqn:Hr; [|done]. intros [= <-].
  pose proof (Hrows _ _ Hr) as [HM Hpix]%has_shape2_lookup.
  apply has_shape2_lookup. split; [by apply length_circular_diff|].
  intros j hp Hhp.
  assert (j < M) as Hj.
  { erewrite <-(length_circular_diff _ _ _ M r) by done.
    by eapply lookup_lt_Some. }
  destruct (lookup_lt_is_Some_2 r j) as [p Hp]; [lia|].
  destruct (lookup_lt_is_Some_2 r (next_index M j)) as [q Hq].
  { unfold next_index. case_decide; lia. }
  rewrite (lookup_circular_diff _ _ _ M r j p q) in Hhp by done.
  injection Hhp as <-.
  apply length_pixel_diff; by eapply Hpix.
Qed.

Lemma has_shape3_compute_v (S : tensor3 real) N M C :
  has_shape3 N M C S → has_shape3 N M C (compute_v S N).
Proof.
  intros HS. pose proof HS as [HN Hrows]%has_shape3_lookup.
  apply has_shape3_lookup. rewrite compute_v_circular.
  split; [by apply length_circular_diff|].
  intros i vr Hvr.
  assert (i < N) as Hi.
  { erewrite <-(length_circular_diff _ _ _ N S) by done.
    by eapply lookup_lt_Some. }
  destruct (lookup_lt_is_Some_2 S i) as [r Hr]; [lia|].
  destruct (lookup_lt_is_Some_2 S (next_index N i)) as [s Hs].
  { unfold next_index. case_decide; lia. }
  rewrite (lookup_circular_diff _ _ _ N S i r s) in Hvr by done.
  injection Hvr as <-.
  pose proof (Hrows _ _ Hr) as [HM Hpix]%has_shape2_lookup.
  pose proof (Hrows _ _ Hs) as [HM' Hpix']%has_shape2_lookup.
  apply has_shape2_lookup. split.
  { unfold zip2, map2. rewrite !length_zip_with, length_fmap. lia. }
  intros j vp Hvp.
  assert (j < M) as Hj.
  { apply lookup_lt_Some in Hvp. unfold zip2, map2 in Hvp.
    rewrite !length_zip_with, length_fmap in Hvp. lia. }
  destruct (lookup_lt_is_Some_2 r j) as [p Hp]; [lia|].
  destruct (lookup_lt_is_Some_2 s j) as [q Hq]; [lia|].
  rewrite (lookup_row_diff r s j p q) in Hvp by done.
  injection Hvp as <-.
  apply length_pixel_diff; [by eapply Hpix|by eapply Hpix'].
Qed.
End Differences.

(** ** The binary32 arithmetic satisfies the laws *)

Lemma f32_add_zero_l x : F32.same_number (F32.add (S754_zero false) x) x.
Proof. destruct x as [[]|[]| |]; (by left) || (by right). Qed.

Lemma SFcompare_swap x y :
  SFcompare y x = option_map CompOpp (SFcompare x y).
Proof.
  destruct x as [sx|sx| |sx mx ex], y as [sy|sy| |sy my ey]; simpl;
    try reflexivity; try (by destruct sx); try (by destruct sy);
    try (by destruct sx, sy).
  rewrite (Z.compare_antisym ex ey).
  rewrite !Pos.compare_cont_spec, (Pos.compare_antisym mx my). simpl.
  destruct sx, sy; simpl; try reflexivity;
    destruct (ex ?= ey)%Z; simpl; try reflexivity;
    by destruct (mx ?= my)%positive.
Qed.

Lemma SFltb_not_SFleb x y : SFltb x y = true → SFleb y x = false.
Proof.
  unfold SFltb, SFleb. rewrite (SFcompare_swap x y).
  by destruct (SFcompare x y) as [[]|].
Qed.

Lemma SFltb_irrefl x : SFltb x x = false.
Proof.
  unfold SFltb. pose proof (SFcompare_swap x x) as Hs.
  destruct (SFcompare x x) as [[]|]; simpl in Hs; congruence.
Qed.

#[global] Instance f32_laws : NumericsLaws f32_numerics.
Proof.
  split.
  - intros x. by left.
  - exact f32_add_zero_l.
  - exact SFltb_not_SFleb.
Qed.

(** ** C6 *)

(** C6: before the thresholding, [h] and [v] are the circular forward
    differences of the current [S], each of the shape (H, W, C) of [S]:
    [h[i][j] = S[i][j+1] - S[i][j]] for [j < W - 1] and
    [h[i][W-1] = S[i][0] - S[i][W-1]]; [v[i][j] = S[i+1][j] - S[i][j]] for
    [i < H - 1] and [v[H-1][j] = S[0][j] - S[H-1][j]].  (The program adds
    each difference to the zero of [tf.zeros_like], which keeps the
    number.) *)
Theorem forward_differences_circular {NM : Numerics} (NL : NumericsLaws NM)
    (S : tensor3 real) (N M C : nat) :
  has_shape3 N M C S →
  has_shape3 N M C (compute_h S M) ∧ has_shape3 N M C (compute_v S N) ∧
  circular_forward_differences S (compute_h S M) (compute_v S N) N M.
Proof.
  intros HS.
  split; [by apply has_shape3_compute_h|].
  split; [by apply has_shape3_compute_v|].
  repeat split.
  - intros i j c a b Hj Ha Hb. eexists. split; [|apply radd_zero_l].
    eapply get3_compute_h; [done..|].
    unfold next_index. by rewrite decide_True.
  - intros i c a b Ha Hb. eexists. split; [|apply radd_zero_l].
    eapply get3_compute_h; [done..|].
    unfold next_index. by rewrite decide_False by lia.
  - intros i j c a b Hi Ha Hb. eexists. split; [|apply radd_zero_l].
    eapply get3_compute_v; [done..|].
    unfold next_index. by rewrite decide_True.
  - intros j c a b Ha Hb. eexists. split; [|apply radd_zero_l].
    eapply get3_compute_v; [done..|].
    unfold next_index. by rewrite decide_False by lia.
Qed.

Lemma forward_differences_circular_witness :
  NumericsLaws f32_numerics ∧ has_shape3 2 2 1 S_ramp ∧
  (has_shape3 2 2 1 (compute_h S_ramp 2) ∧ has_shape3 2 2 1 (compute_v S_ramp 2) ∧
   circular_forward_differences S_ramp (compute_h S_ramp 2) (compute_v S_ramp 2) 2 2).
Proof.
  assert (has_shape3 2 2 1 S_ramp) as HS.
  { split; [reflexivity|]. repeat constructor. }
  split; [exact f32_laws|]. split; [exact HS|].
  exact (forward_differences_circular f32_laws S_ramp 2 2 1 HS).
Defined.

(** ** Sparse tensors built from [tf.where] *)

Ltac index_eq :=
  repeat match goal with |- _ :: _ = _ :: _ => f_equal end; try done; lia.

Lemma elem_of_where_row i j row x :
  x ∈ where_row i j row ↔
  ∃ n, x = [i; (j + Z.of_nat n)%Z] ∧ row !! n = Some true.
Proof.
  revert j. induction row as [|b row IH]; intros j; simpl.
  - rewrite elem_of_nil. split; [done|]. by intros (n & _ & ?).
  - rewrite elem_of_app, IH. split.
    + intros [Hx|(n & -> & Hn)].
      * destruct b; [|by apply elem_of_nil in Hx].
        apply list_elem_of_singleton in Hx as ->.
        exists 0. by rewrite Z.add_0_r.
      * exists (S n). split; [index_eq|done].
    + intros ([|n] & -> & Hn); simpl in Hn.
      * injection Hn as ->. left. rewrite Z.add_0_r. by apply list_elem_of_singleton.
      * right. exists n. split; [index_eq|done].
Qed.

Lemma elem_of_where_rows i rows x :
  x ∈ where_rows i rows ↔
  ∃ m n r, x = [(i + Z.of_nat m)%Z; Z.of_nat n]
           ∧ rows !! m = Some r ∧ r !! n = Some true.
Proof.
  revert i. induction rows as [|r0 rows IH]; intros i; simpl.
  - rewrite elem_of_nil. split; [done|]. by intros (m & n & r & _ & ? & _).
  - rewrite elem_of_app, IH, elem_of_where_row. split.
    + intros [(n & -> & Hn)|(m & n & r & -> & Hm & Hn)].
      * exists 0, n, r0. by rewrite Z.add_0_r.
      * exists (S m), n, r. split; [index_eq|done].
    + intros ([|m] & n & r & -> & Hm & Hn); simpl in Hm.
      * injection Hm as ->. left. exists n. by rewrite Z.add_0_r.
      * right. exists m, n, r. split; [index_eq|done].
Qed.

Lemma elem_of_tf_where (cond : tensor2 bool) i j :
  [Z.of_nat i; Z.of_nat j] ∈ tf_where cond ↔ get2 cond i j = Some true.
Proof.
  unfold tf_where. rewrite elem_of_where_rows, get2_Some. split.
  - intros (m & n & r & Heq & Hm & Hn). simpl in Heq.
    injection Heq as Hi Hj.
    apply Nat2Z.inj in Hi as ->. apply Nat2Z.inj in Hj as ->. eauto.
  - intros (r & Hr & Hj). by exists i, j, r.
Qed.

Lemma strictly_increasing_app l1 l2 :
  strictly_increasing l1 = true → strictly_increasing l2 = true →
  (∀ x y, x ∈ l1 → y ∈ l2 → lex_ltb x y = true) →
  strictly_increasing (l1 ++ l2) = true.
Proof.
  induction l1 as [|a [|a' l1] IH]; intros H1 H2 Hlt; [done| |].
  - destruct l2 as [|b l2]; [done|]. simpl in *.
    rewrite Hlt; [done|apply elem_of_cons; by left..].
  - change (lex_ltb a a' && strictly_increasing ((a' :: l1) ++ l2) = true).
    simpl in H1. apply andb_true_iff in H1 as [-> H1]. simpl.
    apply IH; [done..|].
    intros x y Hx Hy. apply Hlt; [apply elem_of_cons; by right|done].
Qed.

Lemma strictly_increasing_where_row i j row :
  strictly_increasing (where_row i j row) = true.
Proof.
  revert j. induction row as [|b row IH]; intros j; [done|]. simpl.
  apply strictly_increasing_app; [by destruct b|apply IH|].
  intros x y Hx (n & -> & _)%elem_of_where_row.
  destruct b; [|by apply elem_of_nil in Hx].
  apply list_elem_of_singleton in Hx as ->. simpl.
  rewrite Z.ltb_irrefl, Z.eqb_refl. simpl.
  replace (j <? j + 1 + Z.of_nat n)%Z with true; [done|].
  symmetry. apply Z.ltb_lt. lia.
Qed.

Lemma strictly_increasing_where_rows i rows :
  strictly_increasing (where_rows i rows) = true.
Proof.
  revert i. induction rows as [|r rows IH]; intros i; [done|]. simpl.
  apply strictly_increasing_app;
    [apply strictly_increasing_where_row|apply IH|].
  intros x y (n & -> & _)%elem_of_where_row
    (m & n' & r' & -> & _)%elem_of_where_rows. simpl.
  replace (i <? i + 1 + Z.of_nat m)%Z with true; [done|].
  symmetry. apply Z.ltb_lt. lia.
Qed.

Lemma sparse_value_trues ix ixs k :
  sparse_value ix ixs ((λ _, true) <$> seq k (length ixs))
    = if bool_decide (ix ∈ ixs) then Some true else None.
Proof.
  revert k. induction ixs as [|i ixs IH]; intros k.
  - by rewrite bool_decide_eq_false_2 by apply not_elem_of_nil.
  - cbn [length seq fmap list_fmap sparse_value].
    destruct (decide (i = ix)) as [->|Hne].
    + by rewrite bool_decide_eq_true_2 by (apply elem_of_cons; by left).
    + change (list_fmap nat bool (λ _, true) (seq (S k) (length ixs)))
        with ((λ _ : nat, true) <$> seq (S k) (length ixs)).
      rewrite IH. destruct (decide (ix ∈ ixs)) as [Hin|Hnin].
      * rewrite !bool_decide_eq_true_2; [done| |done].
        apply elem_of_cons; by right.
      * rewrite !bool_decide_eq_false_2; [done| |done].
        intros [?|?]%elem_of_cons; [congruence|done].
Qed.

Lemma indices_shape_pairs rows :
  rows ≠ [] → Forall (λ r, length r = 2) rows →
  indices_shape rows = Ok [length rows; 2].
Proof.
  intros Hne Hall. destruct rows as [|r rest]; [done|].
  apply Forall_cons in Hall as [Hr Hrest]. unfold indices_shape.
  replace (forallb (λ r', length r' =? length r) rest) with true.
  - by rewrite Hr.
  - symmetry. apply forallb_forall. intros r' Hin. apply Nat.eqb_eq.
    rewrite Hr. rewrite Forall_forall in Hrest.
    by apply Hrest, list_elem_of_In.
Qed.

(** Densifying the indices of [tf.where] gives the boolean tensor back,
    unless no entry is true: the empty list of indices is a rank-1
    tensor, which [tf.SparseTensor] refuses. *)
Lemma sparse_of_where (cond : tensor2 bool) N M :
  has_shape2 N M cond → 0 < N →
  (SparseTensor (tf_where cond)
     ((λ _, true) <$> seq 0 (length (tf_where cond))) (N, M)
   ≫= λ sp, sparse_to_dense sp false)
  = if decide (tf_where cond = []) then Raise ValueError else Ok cond.
Proof.
  intros [HN HM]%has_shape2_lookup HposN.
  destruct (decide (tf_where cond = [])) as [Hnil|Hne].
  { by rewrite Hnil. }
  assert (∀ x, x ∈ tf_where cond →
            ∃ i j, x = [Z.of_nat i; Z.of_nat j] ∧ get2 cond i j = Some true)
    as Hshape.
  { intros x Hx. pose proof Hx as (m & n & r & -> & Hm & Hn)%elem_of_where_rows.
    exists m, n. split; [done|]. apply get2_Some. eauto. }
  unfold SparseTensor. rewrite indices_shape_pairs; [|done|].
  2:{ apply Forall_forall. by intros x (i & j & -> & _)%Hshape. }
  simpl. rewrite length_fmap, length_seq, Nat.eqb_refl. simpl.
  unfold sparse_to_dense. simpl.
  replace (forallb (index_in_bounds (N, M)) (tf_where cond)) with true.
  2:{ symmetry. apply forallb_forall.
      intros x (i & j & -> & (r & Hr & Hj)%get2_Some)%list_elem_of_In%Hshape.
      pose proof (lookup_lt_Some _ _ _ Hr). pose proof (HM _ _ Hr).
      pose proof (lookup_lt_Some _ _ _ Hj). simpl.
      repeat (apply andb_true_iff; split);
        first [apply Z.leb_le|apply Z.ltb_lt]; lia. }
  unfold tf_where at 1. rewrite strictly_increasing_where_rows. simpl.
  f_equal. apply list_eq. intros i. rewrite list_lookup_fmap.
  destruct (cond !! i) as [r|] eqn:Hr.
  - pose proof (lookup_lt_Some _ _ _ Hr).
    rewrite lookup_seq_lt by lia. simpl. f_equal.
    apply list_eq. intros j. rewrite list_lookup_fmap.
    destruct (r !! j) as [b|] eqn:Hb.
    + pose proof (lookup_lt_Some _ _ _ Hb). pose proof (HM _ _ Hr).
      rewrite lookup_seq_lt by lia. simpl. f_equal.
      rewrite sparse_value_trues.
      destruct (decide ([Z.of_nat i; Z.of_nat j] ∈ tf_where cond)) as [Hin|Hnin].
      * rewrite bool_decide_eq_true_2 by done.
        apply elem_of_tf_where, get2_Some in Hin as (r' & Hr' & Hj').
        simpl. congruence.
      * rewrite bool_decide_eq_false_2 by done.
        simpl. destruct b; [|done]. destruct Hnin.
        apply elem_of_tf_where, get2_Some. eauto.
    + apply lookup_ge_None in Hb. pose proof (HM _ _ Hr).
      by rewrite lookup_seq_ge by lia.
  - apply lookup_ge_None in Hr. by rewrite lookup_seq_ge by lia.
Qed.

(** ** The mask and the threshold *)

Section Threshold.
Context {NM : Numerics}.

Lemma has_shape2_below_threshold (t : tensor2 real) thr N M :
  has_shape2 N M t → has_shape2 N M (below_threshold t thr).
Proof.
  intros [HN HM]. split.
  - unfold below_threshold, map2. by rewrite length_fmap.
  - unfold below_threshold, map2. apply Forall_fmap.
    eapply Forall_impl; [done|]. intros r Hr. simpl. by rewrite length_fmap.
Qed.

Lemma get2_below_threshold (t : tensor2 real) thr i j :
  get2 (below_threshold t thr) i j
    = (λ x, rltb x (r_of_py thr)) <$> get2 t i j.
Proof.
  unfold get2, below_threshold, map2. rewrite list_lookup_fmap.
  destruct (t !! i) as [r|]; simpl; [|done]. by rewrite list_lookup_fmap.
Qed.

Lemma shape2_has_shape2 {A} (x : tensor2 A) N M :
  has_shape2 N M x → 0 < N → shape2 x = (N, M).
Proof.
  intros [HN HM] Hpos. unfold shape2. destruct x as [|r x]; simpl in *; [lia|].
  apply Forall_cons in HM as [-> _]. by rewrite HN.
Qed.

(** The mask of lines 170-177 is the tensor [t < threshold] repeated over
    the channels; the construction fails when no entry is below the
    threshold. *)
Lemma compute_t_masked_spec (t : tensor2 real) thr C N M :
  has_shape2 N M t →
  compute_t_masked t thr C =
    if decide (tf_where (below_threshold t thr) = []) then Raise ValueError
    else Ok (tile_channels C (below_threshold t thr)).
Proof.
  intros Ht. unfold compute_t_masked. fold (below_threshold t thr).
  destruct (decide (N = 0)) as [->|HN].
  { destruct Ht as [Hl _]. destruct t; [|done]. reflexivity. }
  rewrite (shape2_has_shape2 t N M) by (done || lia).
  pose proof (sparse_of_where (below_threshold t thr) N M
                (has_shape2_below_threshold t thr N M Ht)) as Hsp.
  specialize (Hsp ltac:(lia)). unfold mbind, outcome_bind in *.
  destruct (SparseTensor _ _ _) as [sp| |].
  - rewrite Hsp. by repeat case_decide.
  - repeat case_decide; congruence.
  - repeat case_decide; congruence.
Qed.

Lemma get3_tile_channels {A} C (m : tensor2 A) i j c :
  get3 (tile_channels C m) i j c
    = get2 m i j ≫= λ b, if decide (c < C) then Some b else None.
Proof.
  unfold get3, get2, tile_channels, map2. rewrite list_lookup_fmap.
  destruct (m !! i) as [r|]; simpl; [|done]. rewrite list_lookup_fmap.
  destruct (r !! j) as [b|]; simpl; [|done].
  destruct (decide (c < C)).
  - by apply lookup_replicate_2.
  - apply lookup_replicate_None. lia.
Qed.

Lemma get3_mask_assign_zero (x : tensor3 real) (mask : tensor3 bool) i j c :
  get3 (mask_assign_zero x mask) i j c
    = get3 x i j c ≫= λ a, get3 mask i j c ≫= λ b : bool,
        Some (if b then rzero else a).
Proof.
  unfold get3, mask_assign_zero, zip3, zip2. rewrite lookup_zip_with.
  destruct (x !! i) as [r|]; simpl; [|done].
  destruct (mask !! i) as [mr|]; simpl.
  - rewrite lookup_zip_with.
    destruct (r !! j) as [p|]; simpl; [|done].
    destruct (mr !! j) as [mp|]; simpl.
    + rewrite lookup_zip_with. destruct (p !! c); simpl; [|done].
      by destruct (mp !! c).
    + by destruct (p !! c).
  - destruct (r !! j) as [p|]; simpl; [|done]. by destruct (p !! c).
Qed.

Lemma get2_compute_t (h v : tensor3 real) : energy_of (compute_t h v) h v.
Proof.
  intros i j hp vp (hr & Hhr & Hhp)%get2_Some (vr & Hvr & Hvp)%get2_Some.
  unfold compute_t, reduce_sum_axis2, zip3, zip2, map3, map2, get2.
  rewrite list_lookup_fmap, lookup_zip_with, !list_lookup_fmap, Hhr, Hvr.
  simpl. rewrite list_lookup_fmap, lookup_zip_with, !list_lookup_fmap, Hhp, Hvp.
  done.
Qed.

Lemma has_shape2_compute_t (h v : tensor3 real) N M C :
  has_shape3 N M C h → has_shape3 N M C v → has_shape2 N M (compute_t h v).
Proof.
  intros [Hh Hhr]%has_shape3_lookup [Hv Hvr]%has_shape3_lookup.
  apply has_shape2_lookup.
  unfold compute_t, reduce_sum_axis2, zip3, zip2, map3, map2. split.
  - rewrite length_fmap, length_zip_with, !length_fmap. lia.
  - intros i r. rewrite list_lookup_fmap, lookup_zip_with, !list_lookup_fmap.
    destruct (h !! i) as [hr|] eqn:Hhi; simpl; [|done].
    destruct (v !! i) as [vr|] eqn:Hvi; simpl; [|done].
    intros [= <-]. destruct (Hhr _ _ Hhi) as [? _], (Hvr _ _ Hvi) as [? _].
    rewrite length_fmap, length_zip_with, !length_fmap. lia.
Qed.

(** The hard threshold of lines 170-187, when the mask could be built. *)
Lemma hard_threshold_spec (NL : NumericsLaws NM) (h v : tensor3 real)
    (t : tensor2 real) thr N M C t_masked :
  has_shape3 N M C h → has_shape3 N M C v → has_shape2 N M t →
  compute_t_masked t thr C = Ok t_masked →
  hard_thresholded t (r_of_py thr) C h v
    (mask_assign_zero h t_masked) (mask_assign_zero v t_masked).
Proof.
  intros Hh Hv Ht Hmask.
  rewrite (compute_t_masked_spec t thr C N M Ht) in Hmask.
  destruct (decide _) as [|_]; [done|]. injection Hmask as <-.
  assert (∀ (x : tensor3 real) i j tij, has_shape3 N M C x →
            get2 t i j = Some tij →
            (rltb tij (r_of_py thr) = true → ∀ c, c < C →
               get3 (mask_assign_zero x
                       (tile_channels C (below_threshold t thr))) i j c
                 = Some rzero) ∧
            (rltb tij (r_of_py thr) = false → ∀ c,
               get3 (mask_assign_zero x
                       (tile_channels C (below_threshold t thr))) i j c
                 = get3 x i j c)) as Hone.
  { intros x i j tij [Hx Hxr]%has_shape3_lookup Htij.
    pose proof Htij as (tr & Htr & Htj)%get2_Some.
    pose proof Ht as [HtN HtM]%has_shape2_lookup.
    pose proof (lookup_lt_Some _ _ _ Htr) as Hi.
    pose proof (lookup_lt_Some _ _ _ Htj) as Hj. rewrite (HtM _ _ Htr) in Hj.
    destruct (lookup_lt_is_Some_2 x i) as [r Hr]; [lia|].
    pose proof (Hxr _ _ Hr) as [HrM Hrp]%has_shape2_lookup.
    destruct (lookup_lt_is_Some_2 r j) as [p Hp]; [lia|].
    pose proof (Hrp _ _ Hp) as HpC.
    assert (∀ c, get3 x i j c = p !! c) as Hget.
    { intros c. unfold get3. by rewrite Hr; simpl; rewrite Hp. }
    split; intros Hlt c.
    - intros Hc. rewrite get3_mask_assign_zero, get3_tile_channels,
        get2_below_threshold, Htij, Hget. simpl.
      destruct (lookup_lt_is_Some_2 p c) as [a ->]; [lia|]. simpl.
      by rewrite decide_True, Hlt by done.
    - rewrite get3_mask_assign_zero, get3_tile_channels,
        get2_below_threshold, Htij, Hget. simpl.
      destruct (p !! c) as [a|] eqn:Ha; simpl; [|done].
      pose proof (lookup_lt_Some _ _ _ Ha).
      by rewrite decide_True, Hlt by lia. }
  intros i j tij Htij.
  destruct (Hone h i j tij Hh Htij) as [Hhz Hhk].
  destruct (Hone v i j tij Hv Htij) as [Hvz Hvk].
  split.
  - intros Hlt c Hc. split; [by apply Hhz|by apply Hvz].
  - intros Hge c.
    assert (rltb tij (r_of_py thr) = false) as Hnlt.
    { destruct (rltb tij (r_of_py thr)) eqn:Hlt; [|done].
      apply rltb_not_rleb in Hlt. congruence. }
    split; [by apply Hhk|by apply Hvk].
Qed.
End Threshold.

(** ** The loop *)

Section LoopFacts.
Context {NM : Numerics}.
Variables (N M C : nat) (_lambda beta_max : Py.float) (denom2 : real_tensor).

Lemma loop_body_Ok st st' :
  loop_body N M C _lambda beta_max denom2 st = Ok st' →
  ∃ t_masked,
    compute_t_masked (compute_t (compute_h (st_S st) M) (compute_v (st_S st) N))
      (Py.div _lambda (st_beta st)) C = Ok t_masked ∧
    st_S st' = st_S st ∧ st_beta st' = beta_max ∧
    st_entered st' = st_entered st ++ [st_beta st] ∧
    ∃ denom numer2,
      st_body st' = Some
        (BodyVars denom (compute_h (st_S st) M) (compute_v (st_S st) N)
           (compute_t (compute_h (st_S st) M) (compute_v (st_S st) N))
           (Py.div _lambda (st_beta st))
           (mask_assign_zero (compute_h (st_S st) M) t_masked)
           (mask_assign_zero (compute_v (st_S st) N) t_masked)
           numer2).
Proof.
  unfold loop_body, py_truediv, mbind, outcome_bind.
  destruct (Py.is_zero _); [done|].
  destruct (compute_t_masked _ _ _) as [t_masked| |]; [|done..].
  intros [= <-]. exists t_masked. simpl. eauto 10.
Qed.

(** The body does not run out of fuel. *)
Lemma loop_body_not_OutOfFuel st :
  loop_body N M C _lambda beta_max denom2 st ≠ OutOfFuel.
Proof.
  unfold loop_body, py_truediv, compute_t_masked, SparseTensor,
    sparse_to_dense, indices_shape, mbind, outcome_bind.
  destruct (Py.is_zero _); [done|].
  destruct (tf_where _) as [|r rest]; [done|].
  destruct (forallb _ rest); [|done].
  destruct (_ && _); [|done]. cbn [sp_indices sp_dense_shape sp_values].
  by destruct (_ && _).
Qed.

(** The loop runs its body at most once: after one pass [beta] is
    [beta_max], and [beta_max < beta_max] is false. *)
Lemma while_loop_once fuel st :
  while_loop N M C _lambda beta_max denom2 (S fuel) st =
    if Py.ltb (st_beta st) beta_max
    then loop_body N M C _lambda beta_max denom2 st
    else Ok st.
Proof.
  simpl. destruct (Py.ltb (st_beta st) beta_max); [|done].
  unfold mbind, outcome_bind.
  destruct (loop_body N M C _lambda beta_max denom2 st) as [st'| |] eqn:Hb;
    [|done..].
  apply loop_body_Ok in Hb as (_ & _ & _ & Hbeta & _).
  destruct fuel; simpl; by rewrite Hbeta; unfold Py.ltb; rewrite SFltb_irrefl.
Qed.

Lemma while_loop_terminates fuel st :
  while_loop N M C _lambda beta_max denom2 (S fuel) st ≠ OutOfFuel.
Proof.
  rewrite while_loop_once. destruct (Py.ltb _ _); [|done].
  apply loop_body_not_OutOfFuel.
Qed.
End LoopFacts.

(** ** C5 *)

(** C5: in every iteration that completes the gradient subproblem, with
    [t[i][j]] the sum over the channels of [h ** 2 + v ** 2]: at every
    pixel with [t[i][j] < _lambda / beta] the fields [h] and [v] are zero
    in all channels, and at every pixel with [t[i][j] >= _lambda / beta]
    they are the unmodified finite differences. *)
Theorem gradient_subproblem_hard_threshold {NM : Numerics}
    (NL : NumericsLaws NM) (N M C : nat) (_lambda beta_max : Py.float)
    (denom2 : real_tensor) (st st' : loop_state) :
  has_shape3 N M C (st_S st) →
  loop_body N M C _lambda beta_max denom2 st = Ok st' →
  gradient_subproblem_solved N M C _lambda st st'.
Proof.
  intros HS (t_masked & Hmask & _ & _ & _ & denom & numer2 & Hbody)%loop_body_Ok.
  eexists. split; [exact Hbody|]. simpl.
  do 3 (split; [reflexivity|]). split; [apply get2_compute_t|].
  eapply hard_threshold_spec; [done| | | |exact Hmask].
  - by apply has_shape3_compute_h.
  - by apply has_shape3_compute_v.
  - eapply has_shape2_compute_t;
      [by apply has_shape3_compute_h|by apply has_shape3_compute_v].
Qed.

Lemma gradient_subproblem_hard_threshold_witness :
  NumericsLaws f32_numerics ∧ has_shape3 2 2 1 (st_S st_corner) ∧
  loop_body 2 2 1 default_lambda default_beta_max (Rank2 []) st_corner
    = Ok st_corner' ∧
  gradient_subproblem_solved 2 2 1 default_lambda st_corner st_corner'.
Proof.
  assert (has_shape3 2 2 1 (st_S st_corner)) as HS.
  { split; [reflexivity|]. repeat constructor. }
  assert (loop_body 2 2 1 default_lambda default_beta_max (Rank2 []) st_corner
          = Ok st_corner') as Hrun.
  { reflexivity. }
  split; [exact f32_laws|]. split; [exact HS|]. split; [exact Hrun|].
  exact (gradient_subproblem_hard_threshold f32_laws 2 2 1 default_lambda
           default_beta_max (Rank2 []) st_corner st_corner' HS Hrun).
Defined.

(** ** C10 *)

(** When no entry of [t] is below the threshold, the list of indices is
    empty and the construction of the mask raises [ValueError]. *)
Lemma compute_t_masked_nothing_selected {NM : Numerics} (t : tensor2 real)
    (thr : Py.float) (C : nat) :
  (∀ i j tij, get2 t i j = Some tij → rltb tij (r_of_py thr) = false) →
  compute_t_masked t thr C = Raise ValueError.
Proof.
  intros Hnone. unfold compute_t_masked. fold (below_threshold t thr).
  assert (tf_where (below_threshold t thr) = []) as ->; [|done].
  apply elem_of_nil_inv. intros x (m & n & r & -> & Hm & Hn)%elem_of_where_rows.
  assert (get2 (below_threshold t thr) m n = Some true) as Hget
    by (apply get2_Some; eauto).
  rewrite get2_below_threshold in Hget.
  destruct (get2 t m n) as [tij|] eqn:Ht; [|done].
  simpl in Hget. rewrite (Hnone _ _ _ Ht) in Hget. done.
Qed.

(** C10 (fails on the program): on the 2 x 2 checkerboard every pixel has
    the gradient energy 2, none is below the threshold 1/2 of the first
    pass, and the masking step raises [ValueError] instead of leaving [h]
    and [v] as they are. *)
Theorem masking_raises_when_nothing_selected :
  match l0_init (NM:=f32_numerics) img_checker default_lambda with
  | Ok iv =>
      let h := compute_h (iv_S iv) 2 in
      let v := compute_v (iv_S iv) 2 in
      let threshold := Py.div default_lambda (iv_beta iv) in
      compute_t h v = map2 F32.of_Z [[2; 2]; [2; 2]]%Z ∧
      threshold = Py.lit 1 2 ∧
      tf_where (below_threshold (compute_t h v) threshold) = [] ∧
      compute_t_masked (compute_t h v) threshold 1 = Raise ValueError ∧
      raises_exn
        (loop_body 2 2 1 default_lambda default_beta_max (iv_denom2 iv)
           (LoopState (iv_S iv) (iv_beta iv) None []))
        ValueError
  | _ => False
  end ∧
  l0_image_smoothing (NM:=f32_numerics) 2 img_checker
    default_lambda default_kappa default_beta_max = Raise ValueError.
Proof. vm_compute. repeat split. Qed.

(** ** C1 *)

(** Whatever the input, the function hands back no tensor. *)
Lemma l0_image_smoothing_returns_None {NM : Numerics} fuel img
    (_lambda kappa beta_max : Py.float) v :
  l0_image_smoothing fuel img _lambda kappa beta_max = Ok v → v = PyNone.
Proof.
  unfold l0_image_smoothing, mbind, outcome_bind.
  destruct (l0_run _ _ _ _ _); [|done..]. by intros [= <-].
Qed.

(** C1 (fails on the program): on a valid 2 x 2 image of one channel the
    call completes and returns [None], not an image of the shape
    (2, 2, 1); on a valid image of a single pixel it raises. *)
Theorem smoothing_returns_no_image :
  wf_ndarray img_flat0 ∧ shape img_flat0 = [2; 2; 1] ∧
  l0_image_smoothing (NM:=f32_numerics) 2 img_flat0
    default_lambda default_kappa default_beta_max = Ok PyNone ∧
  wf_ndarray img_pixel ∧ shape img_pixel = [1; 1; 1] ∧
  l0_image_smoothing (NM:=f32_numerics) 2 img_pixel
    default_lambda default_kappa default_beta_max = Raise InvalidArgumentError.
Proof. vm_compute. repeat split. Qed.

(** ** C2 *)

(** No pass through the body assigns to [S]. *)
Lemma while_loop_keeps_S {NM : Numerics} (N M C : nat)
    (_lambda beta_max : Py.float) (denom2 : real_tensor) fuel st st' :
  while_loop N M C _lambda beta_max denom2 fuel st = Ok st' →
  st_S st' = st_S st.
Proof.
  revert st. induction fuel as [|fuel IH]; intros st; simpl.
  - by destruct (Py.ltb _ _); [|intros [= <-]].
  - destruct (Py.ltb _ _); [|by intros [= <-]].
    unfold mbind, outcome_bind.
    destruct (loop_body _ _ _ _ _ _ st) as [st1| |] eqn:Hb; [|done..].
    intros ->%IH. by apply loop_body_Ok in Hb as (_ & _ & -> & _).
Qed.

(** C2 (fails on the program): on the flat image of value 255 the pass
    completes with [numer2 = 0] and leaves [S] at the normalised samples
    (1 everywhere), where the frequency-domain solution of the
    specification is 255 everywhere. *)
Theorem image_subproblem_not_solved :
  match l0_run (NM:=f32_numerics) 2 img_flat255
          default_lambda default_kappa default_beta_max with
  | Ok (iv, st) =>
      st_entered st = [iv_beta iv] ∧
      st_S st = iv_S iv ∧
      st_S st = map3 F32.of_Z [[[1]; [1]]; [[1]; [1]]]%Z ∧
      match st_body st, iv_denom2 iv with
      | Some bv, Rank2 denom2 =>
          F32Spec.spec_S_new 2 2 1 (view3 2 2 1 (buffer img_flat255))
            (iv_beta iv) (bv_numer2 bv) denom2
          = map3 F32.of_Z [[[255]; [255]]; [[255]; [255]]]%Z
      | _, _ => False
      end
  | _ => False
  end.
Proof. vm_compute. repeat split. Qed.

(** ** C3 *)

(** C3 (fails on the program): with the default parameters the body is
    entered once, with [beta = 2 * _lambda], and leaves [beta = beta_max]
    although [beta * kappa] is still below [beta_max]; the schedule of the
    specification has ceil(log2(1e5 / 0.04)) = 22 passes. *)
Theorem beta_schedule_single_pass :
  match l0_run (NM:=f32_numerics) 2 img_flat0
          default_lambda default_kappa default_beta_max with
  | Ok (iv, st) =>
      iv_beta iv = Py.mul (Py.of_Z 2) default_lambda ∧
      st_entered st = [iv_beta iv] ∧
      st_beta st = default_beta_max ∧
      Py.ltb (Py.mul (iv_beta iv) default_kappa) default_beta_max = true
  | _ => False
  end ∧
  length <$> spec_beta_schedule 30 (Py.mul (Py.of_Z 2) default_lambda)
               default_kappa default_beta_max = Some 22.
Proof. vm_compute. repeat split. Qed.

(** ** C4 *)

(** The shifts of the program and of the specification differ on an axis
    of length 1. *)
Lemma roll_shift_values :
  roll_shift 1 = (-1)%Z ∧ roll_shift 2 = (-1)%Z ∧
  spec_roll_shift 1 = 0%Z ∧ spec_roll_shift 2 = (-1)%Z.
Proof. done. Qed.

(** For the two derivative kernels the converter rolls both axes of the
    padded kernel by -1, whatever the target. *)
Lemma converter_rolls_both_axes {NM : Numerics} (psf : tensor2 Z)
    (target : ndarray cplx) (H W : nat) (rest : list nat) (padded : tensor2 Z) :
  shape2 psf = (1, 2) ∨ shape2 psf = (2, 1) →
  shape target = H :: W :: rest →
  _zero_pad_fxypsf psf (H, W) = Ok padded →
  _fxypsf_to_otf psf target
    = Ok (fft2 (map2 c_of_Z (tf_roll (tf_roll padded (-1) 0) (-1) 1))).
Proof.
  intros Hshape Hs Hpad. unfold _fxypsf_to_otf. rewrite Hs.
  change (py_index (H :: W :: rest) 0) with (Ok H).
  change (py_index (H :: W :: rest) 1) with (Ok W).
  unfold mbind, outcome_bind. rewrite Hpad.
  by destruct Hshape as [-> | ->].
Qed.

(** C4 (fails on the program): for the kernel [[1, -1]] and the target
    shape (2, 2) the converter rolls both axes by -1 and transforms
    [[0, 0], [-1, 1]], where the specification transforms
    [[-1, 1], [0, 0]]; the two outputs differ at index (1, 1).  For the
    kernel [[1], [-1]] it transforms [[0, -1], [0, 1]], where the
    specification transforms [[-1, 0], [1, 0]]. *)
Theorem converter_rolls_unit_axis :
  _fxypsf_to_otf (NM:=f32_numerics) psf_fx target_2x2
    = Ok (map2 F32.c_of_Z [[0; -2]; [0; 2]]%Z) ∧
  spec_otf (NM:=f32_numerics) psf_fx 2 2
    = map2 F32.c_of_Z [[0; -2]; [0; -2]]%Z ∧
  _fxypsf_to_otf (NM:=f32_numerics) psf_fy target_2x2
    = Ok (map2 F32.c_of_Z [[0; 0]; [-2; 2]]%Z) ∧
  spec_otf (NM:=f32_numerics) psf_fy 2 2
    = map2 F32.c_of_Z [[0; 0]; [-2; -2]]%Z.
Proof. vm_compute. repeat split. Qed.

(** ** C7 *)

(** [numer1] is the transform of each [img[i]], an array over the axes
    (W, C). *)
Lemma l0_init_numer1 {NM : Numerics} img _lambda iv :
  l0_init img _lambda = Ok iv →
  iv_numer1 iv
    = fft2 <$> view3 (iv_N iv) (iv_M iv) (iv_C iv) (c_of_Z <$> buffer img).
Proof.
  unfold l0_init, mbind, outcome_bind.
  destruct (unpack3 _) as [[[N M] C]| |]; [|done..].
  destruct (_fxypsf_to_otf psf_fx _); [|done..].
  destruct (_fxypsf_to_otf psf_fy _); [|done..].
  by intros [= <-].
Qed.

(** C7 (fails on the program): on the image 1, 2 / 3, 4 of one channel,
    [numer1] holds the transforms of the rows [1, 2] and [3, 4] taken
    over the axes (W, C), not the transform of the channel over the
    spatial axes (H, W). *)
Theorem img_fft_over_inner_axes :
  match l0_init (NM:=f32_numerics) img_ramp default_lambda with
  | Ok iv => iv_numer1 iv = map3 F32.c_of_Z [[[3]; [-1]]; [[7]; [-1]]]%Z
  | _ => False
  end ∧
  spec_fft2d_spatial (NM:=f32_numerics) 2 2 1
    (view3 2 2 1 (F32.c_of_Z <$> buffer img_ramp))
    = map3 F32.c_of_Z [[[10]; [-2]]; [[-4]; [0]]]%Z.
Proof. vm_compute. repeat split. Qed.

(** ** C8 *)

Lemma l0_image_smoothing_init_raises {NM : Numerics} img
    (_lambda : Py.float) e :
  l0_init img _lambda = Raise e →
  ∀ fuel kappa beta_max,
    l0_image_smoothing fuel img _lambda kappa beta_max = Raise e.
Proof.
  intros Hinit fuel kappa beta_max.
  unfold l0_image_smoothing, l0_run, mbind, outcome_bind. by rewrite Hinit.
Qed.

(** C8 (as the program has it): an input that is not 3-dimensional, or
    that is 3-dimensional with no row or no column, makes the function
    fail before the loop is reached: with [ValueError] when the shape
    does not unpack into three extents, with [InvalidArgumentError] when
    the kernel cannot be placed in the empty (H, W) array. *)
Theorem malformed_shape_fails_before_loop {NM : Numerics} (img : ndarray Z)
    (_lambda : Py.float) :
  malformed_shape (shape img) →
  l0_init img _lambda = Raise (malformed_exn (shape img)) ∧
  ∀ fuel kappa beta_max,
    l0_image_smoothing fuel img _lambda kappa beta_max
      = Raise (malformed_exn (shape img)).
Proof.
  intros Hbad.
  assert (l0_init img _lambda = Raise (malformed_exn (shape img))) as Hinit.
  { unfold l0_init, malformed_exn.
    destruct Hbad as [Hrank|(N & M & C & -> & Hzero)].
    - rewrite decide_False by done.
      by destruct (shape img) as [|a [|b [|c [|d s]]]].
    - rewrite decide_True by done.
      destruct Hzero as [-> | ->]; [done|]. by destruct N. }
  split; [done|]. by apply l0_image_smoothing_init_raises.
Qed.

Lemma malformed_shape_fails_before_loop_witness :
  malformed_shape (shape img_no_row) ∧
  (l0_init (NM:=f32_numerics) img_no_row default_lambda
     = Raise (malformed_exn (shape img_no_row)) ∧
   ∀ fuel kappa beta_max,
     l0_image_smoothing (NM:=f32_numerics) fuel img_no_row
       default_lambda kappa beta_max
       = Raise (malformed_exn (shape img_no_row))).
Proof.
  assert (malformed_shape (shape img_no_row)) as Hbad.
  { right. exists 0, 3, 1. split; [reflexivity|]. left. reflexivity. }
  split; [exact Hbad|].
  exact (malformed_shape_fails_before_loop img_no_row default_lambda Hbad).
Defined.

(** C8 (fails as stated): a 2 x 2 image without channels has a
    zero-length dimension, and the function does not fail on it: the
    loop is entered once and the call returns [None]. *)
Lemma zero_channels_not_rejected :
  wf_ndarray img_no_channel ∧
  shape img_no_channel = [2; 2; 0] ∧
  match l0_run (NM:=f32_numerics) 2 img_no_channel
          default_lambda default_kappa default_beta_max with
  | Ok (iv, st) => st_entered st = [iv_beta iv]
  | _ => False
  end ∧
  l0_image_smoothing (NM:=f32_numerics) 2 img_no_channel
    default_lambda default_kappa default_beta_max = Ok PyNone.
Proof. vm_compute. repeat split. Qed.

(** ** C9 *)

Lemma index_in_bounds_nat (s : nat * nat) (i j : nat) :
  i < s.1 → j < s.2 → index_in_bounds s [Z.of_nat i; Z.of_nat j] = true.
Proof.
  intros Hi Hj. unfold index_in_bounds.
  repeat (apply andb_true_iff; split);
    first [apply Z.leb_le|apply Z.ltb_lt]; lia.
Qed.

Lemma sparse_to_dense_returns {A} (sp : sparse_tensor A) d :
  forallb (index_in_bounds (sp_dense_shape sp)) (sp_indices sp) = true →
  strictly_increasing (sp_indices sp) = true →
  returns (sparse_to_dense sp d).
Proof. intros Hb Hs. unfold sparse_to_dense. rewrite Hb, Hs. by eexists. Qed.

Lemma kernel_indices_in_bounds (H W : nat) :
  2 ≤ H → 2 ≤ W →
  forallb (index_in_bounds (H, W)) [[0; 0]; [0; 1]]%Z = true ∧
  forallb (index_in_bounds (H, W)) [[0; 0]; [1; 0]]%Z = true.
Proof.
  intros HH HW.
  pose proof (index_in_bounds_nat (H, W) 0 0) as H00.
  pose proof (index_in_bounds_nat (H, W) 0 1) as H01.
  pose proof (index_in_bounds_nat (H, W) 1 0) as H10.
  change (Z.of_nat 0) with 0%Z in *. change (Z.of_nat 1) with 1%Z in *.
  cbn [forallb]. rewrite H00, H01, H10 by (simpl; lia). done.
Qed.

Lemma zero_pad_accepted (psf : tensor2 Z) (r c H W : nat) :
  has_shape2 r c psf → 2 ≤ H → 2 ≤ W → kernel_accepted r c →
  returns (_zero_pad_fxypsf psf (H, W)).
Proof.
  intros [Hr Hc] HH HW Hacc.
  destruct (kernel_indices_in_bounds H W HH HW) as [Hfx Hfy].
  destruct Hacc as [[-> ->]|[-> Hpos]].
  - destruct psf as [|r1 [|]]; try done.
    apply Forall_cons in Hc as [Hc _].
    destruct r1 as [|a [|b [|]]]; try done.
    by apply sparse_to_dense_returns.
  - destruct psf as [|r1 [|r2 [|]]]; try done.
    apply Forall_cons in Hc as [Hc1 Hc]. apply Forall_cons in Hc as [Hc2 _].
    destruct r1 as [|a r1]; [simpl in Hc1; lia|].
    destruct r2 as [|b r2]; [simpl in Hc2; lia|].
    by apply sparse_to_dense_returns.
Qed.

Lemma zero_pad_refused (psf : tensor2 Z) (r c H W : nat) :
  has_shape2 r c psf → ¬ kernel_accepted r c →
  raises (_zero_pad_fxypsf psf (H, W)).
Proof.
  intros [Hr Hc] Hno. unfold kernel_accepted in Hno.
  destruct psf as [|r1 [|r2 [|r3 psf]]]; simpl in Hr; subst r.
  - by exists UnboundLocalError.
  - apply Forall_cons in Hc as [Hc _].
    destruct r1 as [|a [|b [|d r1]]]; simpl in Hc; subst c;
      [by exists ValueError..|lia|by exists ValueError].
  - apply Forall_cons in Hc as [Hc1 Hc]. apply Forall_cons in Hc as [Hc2 _].
    destruct r1 as [|a r1]; [by exists InvalidArgumentError|].
    simpl in Hc1. lia.
  - by exists UnboundLocalError.
Qed.

Lemma fxypsf_to_otf_pad {NM : Numerics} psf (target : ndarray cplx) H W rest :
  shape target = H :: W :: rest →
  (returns (_fxypsf_to_otf psf target) ↔ returns (_zero_pad_fxypsf psf (H, W))) ∧
  (raises (_zero_pad_fxypsf psf (H, W)) → raises (_fxypsf_to_otf psf target)).
Proof.
  intros Hs. unfold _fxypsf_to_otf. rewrite Hs. simpl.
  unfold mbind, outcome_bind, returns, raises.
  destruct (_zero_pad_fxypsf psf (H, W)) as [p|e|]; split; try split;
    try (intros [? ?]; done); eauto.
Qed.

(** The exception of each refused kernel shape: no branch binds
    [psf_padded] when the row count is neither 1 nor 2, the sparse
    tensor refuses a row that does not hold two values, and a two-row
    kernel without a column has no first column to slice. *)
Lemma zero_pad_refused_exn (psf : tensor2 Z) (r c H W : nat) :
  has_shape2 r c psf →
  (r ≠ 1 → r ≠ 2 → raises_exn (_zero_pad_fxypsf psf (H, W)) UnboundLocalError) ∧
  (r = 1 → c ≠ 2 → raises_exn (_zero_pad_fxypsf psf (H, W)) ValueError) ∧
  (r = 2 → c = 0 →
     raises_exn (_zero_pad_fxypsf psf (H, W)) InvalidArgumentError).
Proof.
  intros [Hr Hc].
  destruct psf as [|r1 [|r2 [|r3 psf]]]; simpl in Hr; subst r;
    (split; [|split]); try (intros; lia); try (intros; reflexivity).
  - intros _ Hne. apply Forall_cons in Hc as [Hc _].
    destruct r1 as [|a [|b [|d r1]]]; simpl in Hc; subst c;
      [reflexivity..|lia|reflexivity].
  - intros _ ->. apply Forall_cons in Hc as [Hc1 _].
    destruct r1 as [|a r1]; [reflexivity|simpl in Hc1; lia].
Qed.

Lemma fxypsf_to_otf_pad_exn {NM : Numerics} psf (target : ndarray cplx)
    H W rest e :
  shape target = H :: W :: rest →
  raises_exn (_zero_pad_fxypsf psf (H, W)) e →
  raises_exn (_fxypsf_to_otf psf target) e.
Proof.
  intros Hs. unfold _fxypsf_to_otf. rewrite Hs. simpl.
  unfold mbind, outcome_bind, raises_exn.
  by destruct (_zero_pad_fxypsf psf (H, W)) as [p|e'|].
Qed.

(** C9 (as the program has it): for a rectangular kernel of shape (r, c)
    and a target of at least 2 x 2, the converter succeeds exactly when
    the kernel has one row of two values or two rows of at least one
    value (of which it reads the first column).  Every other kernel
    fails with an exception that reaches the caller: [UnboundLocalError]
    when the row count is neither 1 nor 2, [ValueError] when the single
    row does not hold two values, [InvalidArgumentError] when the two
    rows hold no value. *)
Theorem converter_accepts_by_row_count {NM : Numerics} (psf : tensor2 Z)
    (r c : nat) (target : ndarray cplx) (H W : nat) (rest : list nat) :
  has_shape2 r c psf → shape target = H :: W :: rest → 2 ≤ H → 2 ≤ W →
  (returns (_fxypsf_to_otf psf target) ↔ kernel_accepted r c) ∧
  (¬ kernel_accepted r c → raises (_fxypsf_to_otf psf target)) ∧
  (r ≠ 1 → r ≠ 2 → raises_exn (_fxypsf_to_otf psf target) UnboundLocalError) ∧
  (r = 1 → c ≠ 2 → raises_exn (_fxypsf_to_otf psf target) ValueError) ∧
  (r = 2 → c = 0 →
     raises_exn (_fxypsf_to_otf psf target) InvalidArgumentError).
Proof.
  intros Hpsf Hs HH HW.
  destruct (fxypsf_to_otf_pad psf target H W rest Hs) as [Hret Hraise].
  destruct (zero_pad_refused_exn psf r c H W Hpsf) as (Hu & Hv & Hi).
  assert (¬ kernel_accepted r c → raises (_fxypsf_to_otf psf target)) as Hno.
  { intros Hno. by eapply Hraise, zero_pad_refused. }
  split; [split|split; [exact Hno|]].
  - intros [otf Hotf].
    destruct (decide (r = 1 ∧ c = 2)) as [|H1]; [by left|].
    destruct (decide (r = 2 ∧ 1 ≤ c)) as [|H2]; [by right|].
    destruct Hno as [e He]; [intros [|]; done|]. congruence.
  - intros Hyes. by eapply Hret, zero_pad_accepted.
  - split; [|split].
    + intros H1 H2. eapply fxypsf_to_otf_pad_exn; [exact Hs|by apply Hu].
    + intros H1 H2. eapply fxypsf_to_otf_pad_exn; [exact Hs|by apply Hv].
    + intros H1 H2. eapply fxypsf_to_otf_pad_exn; [exact Hs|by apply Hi].
Qed.

Lemma converter_accepts_by_row_count_witness :
  (has_shape2 1 2 psf_fx ∧ shape target_2x2 = [2; 2; 1] ∧ 2 ≤ 2 ∧
   returns (_fxypsf_to_otf (NM:=f32_numerics) psf_fx target_2x2)) ∧
  (has_shape2 3 1 [[1]; [-1]; [0]]%Z ∧
   raises_exn (_fxypsf_to_otf (NM:=f32_numerics) [[1]; [-1]; [0]]%Z target_2x2)
     UnboundLocalError) ∧
  (has_shape2 1 3 [[1; -1; 0]]%Z ∧
   raises_exn (_fxypsf_to_otf (NM:=f32_numerics) [[1; -1; 0]]%Z target_2x2)
     ValueError) ∧
  (has_shape2 2 0 ([[]; []] : tensor2 Z) ∧
   raises_exn (_fxypsf_to_otf (NM:=f32_numerics) [[]; []] target_2x2)
     InvalidArgumentError).
Proof.
  assert (has_shape2 1 2 psf_fx) as Hfx.
  { split; [reflexivity|]. repeat constructor. }
  assert (has_shape2 3 1 [[1]; [-1]; [0]]%Z) as H31.
  { split; [reflexivity|]. repeat constructor. }
  assert (has_shape2 1 3 [[1; -1; 0]]%Z) as H13.
  { split; [reflexivity|]. repeat constructor. }
  assert (has_shape2 2 0 ([[]; []] : tensor2 Z)) as H20.
  { split; [reflexivity|]. repeat constructor. }
  split; [|split; [|split]].
  - split; [exact Hfx|]. split; [reflexivity|]. split; [lia|].
    apply (converter_accepts_by_row_count (NM:=f32_numerics) psf_fx 1 2
             target_2x2 2 2 [1] Hfx eq_refl ltac:(lia) ltac:(lia)).
    left. split; reflexivity.
  - split; [exact H31|].
    apply (converter_accepts_by_row_count (NM:=f32_numerics) _ 3 1
             target_2x2 2 2 [1] H31 eq_refl ltac:(lia) ltac:(lia)); lia.
  - split; [exact H13|].
    apply (converter_accepts_by_row_count (NM:=f32_numerics) _ 1 3
             target_2x2 2 2 [1] H13 eq_refl ltac:(lia) ltac:(lia)); lia.
  - split; [exact H20|].
    apply (converter_accepts_by_row_count (NM:=f32_numerics) _ 2 0
             target_2x2 2 2 [1] H20 eq_refl ltac:(lia) ltac:(lia)); lia.
Defined.

(** C9 (fails as stated): a kernel of shape (2, 2) is neither of the two
    derivative kernels, and the converter succeeds on it, using its
    first column. *)
Lemma converter_accepts_2x2_kernel :
  has_shape2 2 2 psf_2x2 ∧
  _fxypsf_to_otf (NM:=f32_numerics) psf_2x2 target_2x2
    = _fxypsf_to_otf (NM:=f32_numerics) psf_fy target_2x2 ∧
  _fxypsf_to_otf (NM:=f32_numerics) psf_2x2 target_2x2
    = Ok (map2 F32.c_of_Z [[0; 0]; [-2; 2]]%Z).
Proof.
  split; [split; [reflexivity|repeat constructor]|].
  vm_compute. repeat split.
Qed.

(** * Further properties of the program *)

(** ** Padding of the derivative kernels *)

Lemma index_in_bounds_decide (s : nat * nat) (i j : nat) :
  index_in_bounds s [Z.of_nat i; Z.of_nat j] = bool_decide (i < s.1 ∧ j < s.2).
Proof.
  case_bool_decide as Hb.
  - destruct Hb. by apply index_in_bounds_nat.
  - unfold index_in_bounds. apply not_true_is_false. intros Ht.
    apply andb_true_iff in Ht as [Ht Hj]. apply andb_true_iff in Ht as [Ht _].
    apply andb_true_iff in Ht as [_ Hi].
    apply Z.ltb_lt in Hi, Hj. lia.
Qed.

(** The dense array of a sparse tensor with the values [k0], [k1] at two
    valid, increasing indices. *)
Lemma sparse_to_dense_pair (i0 j0 i1 j1 : nat) (k0 k1 : Z) (H W : nat) :
  lex_ltb [Z.of_nat i0; Z.of_nat j0] [Z.of_nat i1; Z.of_nat j1] = true →
  sparse_to_dense
    (SparseTensor_ [[Z.of_nat i0; Z.of_nat j0]; [Z.of_nat i1; Z.of_nat j1]]
       [k0; k1] (H, W)) 0%Z
  = if bool_decide ((i0 < H ∧ j0 < W) ∧ (i1 < H ∧ j1 < W))
    then Ok ((λ i, (λ j,
                 if bool_decide (i = i0 ∧ j = j0) then k0
                 else if bool_decide (i = i1 ∧ j = j1) then k1 else 0%Z)
               <$> seq 0 W) <$> seq 0 H)
    else Raise InvalidArgumentError.
Proof.
  intros Hlt. unfold sparse_to_dense.
  cbn [sp_indices sp_values sp_dense_shape forallb strictly_increasing fst snd].
  rewrite Hlt, !index_in_bounds_decide. cbn [fst snd].
  destruct (decide (i0 < H ∧ j0 < W)) as [Hb0|Hb0];
    destruct (decide (i1 < H ∧ j1 < W)) as [Hb1|Hb1].
  2,3,4: rewrite (bool_decide_eq_false_2 ((i0 < H ∧ j0 < W) ∧ (i1 < H ∧ j1 < W)))
    by (intros [? ?]; done).
  2: by rewrite (bool_decide_eq_false_2 (i1 < H ∧ j1 < W)), andb_false_r.
  2,3: by rewrite (bool_decide_eq_false_2 (i0 < H ∧ j0 < W)).
  rewrite (bool_decide_eq_true_2 (i0 < H ∧ j0 < W)),
    (bool_decide_eq_true_2 (i1 < H ∧ j1 < W)),
    (bool_decide_eq_true_2 ((i0 < H ∧ j0 < W) ∧ (i1 < H ∧ j1 < W))) by done.
  cbn [andb]. f_equal. apply list_fmap_ext. intros _ i _.
  apply list_fmap_ext. intros _ j _. cbn [sparse_value].
  destruct (decide ([Z.of_nat i0; Z.of_nat j0] = [Z.of_nat i; Z.of_nat j]))
    as [Heq|Hne].
  { injection Heq as Hi Hj. apply Nat2Z.inj in Hi, Hj.
    by rewrite bool_decide_eq_true_2. }
  rewrite bool_decide_eq_false_2 by (intros [? ?]; congruence).
  destruct (decide ([Z.of_nat i1; Z.of_nat j1] = [Z.of_nat i; Z.of_nat j]))
    as [Heq|Hne'].
  { injection Heq as Hi Hj. apply Nat2Z.inj in Hi, Hj.
    by rewrite bool_decide_eq_true_2. }
  by rewrite bool_decide_eq_false_2 by (intros [? ?]; congruence).
Qed.

Lemma spec_embed_pointwise (psf : tensor2 Z) (H W : nat) (f : nat → nat → Z) :
  (∀ i j, default 0%Z (get2 psf i j) = f i j) →
  spec_embed psf H W = (λ i, (λ j, f i j) <$> seq 0 W) <$> seq 0 H.
Proof.
  intros Hf. unfold spec_embed.
  apply list_fmap_ext. intros _ i _. apply list_fmap_ext. intros _ j _. apply Hf.
Qed.

Lemma zero_pad_kernel_spec (psf : tensor2 Z) (r c H W : nat) :
  has_shape2 r c psf → (r = 1 ∧ c = 2) ∨ (r = 2 ∧ c = 1) →
  _zero_pad_fxypsf psf (H, W)
    = if bool_decide (r ≤ H ∧ c ≤ W) then Ok (spec_embed psf H W)
      else Raise InvalidArgumentError.
Proof.
  intros [Hr Hc] [[-> ->]|[-> ->]].
  - destruct psf as [|r1 [|]]; try done.
    apply Forall_cons in Hc as [Hc _].
    destruct r1 as [|k0 [|k1 [|]]]; try done.
    transitivity (sparse_to_dense
      (SparseTensor_ [[Z.of_nat 0; Z.of_nat 0]; [Z.of_nat 0; Z.of_nat 1]]
         [k0; k1] (H, W)) 0%Z); [done|].
    rewrite sparse_to_dense_pair by done.
    destruct (decide (1 ≤ H ∧ 2 ≤ W)) as [Hb|Hb].
    + rewrite !bool_decide_eq_true_2 by lia. f_equal. symmetry.
      apply spec_embed_pointwise. by intros [|i] [|[|j]].
    + by rewrite !bool_decide_eq_false_2 by lia.
  - destruct psf as [|r1 [|r2 [|]]]; try done.
    apply Forall_cons in Hc as [Hc1 Hc]. apply Forall_cons in Hc as [Hc2 _].
    destruct r1 as [|k0 [|]]; try done. destruct r2 as [|k1 [|]]; try done.
    transitivity (sparse_to_dense
      (SparseTensor_ [[Z.of_nat 0; Z.of_nat 0]; [Z.of_nat 1; Z.of_nat 0]]
         [k0; k1] (H, W)) 0%Z); [done|].
    rewrite sparse_to_dense_pair by done.
    destruct (decide (2 ≤ H ∧ 1 ≤ W)) as [Hb|Hb].
    + rewrite !bool_decide_eq_true_2 by lia. f_equal. symmetry.
      apply spec_embed_pointwise. by intros [|[|i]] [|j].
    + by rewrite !bool_decide_eq_false_2 by lia.
Qed.

(** X1: padding a derivative kernel of shape (1, 2) or (2, 1) to a target
    (H, W) that holds it gives the (H, W) array with the kernel in its
    top-left corner and zeros elsewhere; a target too small for the kernel
    is refused with [InvalidArgumentError]. *)
Theorem zero_pad_embeds_kernel (psf : tensor2 Z) (r c H W : nat) :
  has_shape2 r c psf → (r = 1 ∧ c = 2) ∨ (r = 2 ∧ c = 1) →
  _zero_pad_fxypsf psf (H, W)
    = if bool_decide (r ≤ H ∧ c ≤ W) then Ok (spec_embed psf H W)
      else Raise InvalidArgumentError.
Proof. exact (zero_pad_kernel_spec psf r c H W). Qed.

Lemma zero_pad_embeds_kernel_witness :
  has_shape2 2 1 psf_fy ∧ ((2 = 1 ∧ 1 = 2) ∨ (2 = 2 ∧ 1 = 1)) ∧
  _zero_pad_fxypsf psf_fy (3, 2)
    = if bool_decide (2 ≤ 3 ∧ 1 ≤ 2) then Ok (spec_embed psf_fy 3 2)
      else Raise InvalidArgumentError.
Proof.
  assert (has_shape2 2 1 psf_fy) as Hs.
  { split; [reflexivity|]. repeat constructor. }
  assert ((2 = 1 ∧ 1 = 2) ∨ (2 = 2 ∧ 1 = 1)) as Hk.
  { right. split; reflexivity. }
  split; [exact Hs|]. split; [exact Hk|].
  exact (zero_pad_embeds_kernel psf_fy 2 1 3 2 Hs Hk).
Defined.

(** ** Initialisation *)

Section Init.
Context {NM : Numerics}.

Lemma fxypsf_to_otf_kernel (psf : tensor2 Z) (r c : nat)
    (target : ndarray cplx) (H W : nat) (rest : list nat) :
  has_shape2 r c psf → (r = 1 ∧ c = 2) ∨ (r = 2 ∧ c = 1) →
  shape target = H :: W :: rest →
  _fxypsf_to_otf psf target
    = if bool_decide (r ≤ H ∧ c ≤ W)
      then Ok (fft2 (map2 c_of_Z (rolled_kernel psf H W)))
      else Raise InvalidArgumentError.
Proof.
  intros Hpsf Hk Hs.
  pose proof (zero_pad_kernel_spec psf r c H W Hpsf Hk) as Hpad.
  destruct (bool_decide (r ≤ H ∧ c ≤ W)).
  - apply (converter_rolls_both_axes psf target H W rest); [|done..].
    destruct Hpsf as [Hr Hc].
    destruct Hk as [[-> ->]|[-> ->]]; [left|right].
    + destruct psf as [|r1 [|]]; try done.
      apply Forall_cons in Hc as [Hc _]. unfold shape2. simpl. by rewrite Hc.
    + destruct psf as [|r1 [|r2 [|]]]; try done.
      apply Forall_cons in Hc as [Hc _]. unfold shape2. simpl. by rewrite Hc.
  - unfold _fxypsf_to_otf. rewrite Hs.
    change (py_index (H :: W :: rest) 0) with (Ok H).
    change (py_index (H :: W :: rest) 1) with (Ok W).
    unfold mbind, outcome_bind. by rewrite Hpad.
Qed.

Lemma l0_init_shape (img : ndarray Z) (_lambda : Py.float) (N M C : nat) :
  shape img = [N; M; C] →
  l0_init img _lambda
    = if bool_decide (2 ≤ N ∧ 2 ≤ M) then Ok (init_vars_of img _lambda N M C)
      else Raise InvalidArgumentError.
Proof.
  intros Hs. unfold l0_init. rewrite Hs.
  cbn [unpack3]. unfold mbind at 1. unfold outcome_bind at 1. cbn beta iota.
  rewrite (fxypsf_to_otf_kernel psf_fx 1 2 _ N M [C]);
    [|split; [done|repeat constructor]|by left|done].
  rewrite (fxypsf_to_otf_kernel psf_fy 2 1 _ N M [C]);
    [|split; [done|repeat constructor]|by right|done].
  destruct (decide (2 ≤ N ∧ 2 ≤ M)) as [Hb|Hb].
  - rewrite !bool_decide_eq_true_2 by lia.
    unfold init_vars_of. rewrite Hs. reflexivity.
  - rewrite (bool_decide_eq_false_2 (2 ≤ N ∧ 2 ≤ M)) by done.
    destruct (decide (1 ≤ N ∧ 2 ≤ M)) as [Hx|Hx].
    + rewrite (bool_decide_eq_true_2 (1 ≤ N ∧ 2 ≤ M)) by done.
      by rewrite (bool_decide_eq_false_2 (2 ≤ N ∧ 1 ≤ M)) by lia.
    + by rewrite (bool_decide_eq_false_2 (1 ≤ N ∧ 2 ≤ M)) by done.
Qed.

Lemma l0_init_rank (img : ndarray Z) (_lambda : Py.float) :
  length (shape img) ≠ 3 → l0_init img _lambda = Raise ValueError.
Proof.
  intros Hrank. unfold l0_init.
  by destruct (shape img) as [|a [|b [|c [|d s]]]].
Qed.

Lemma l0_init_Ok (img : ndarray Z) (_lambda : Py.float) (iv : init_vars) :
  l0_init img _lambda = Ok iv →
  ∃ N M C, shape img = [N; M; C] ∧ 2 ≤ N ∧ 2 ≤ M ∧
           iv = init_vars_of img _lambda N M C.
Proof.
  intros Hinit.
  destruct (decide (length (shape img) = 3)) as [Hrank|Hrank].
  - destruct (shape img) as [|N [|M [|C [|d s]]]] eqn:Hs; try done.
    rewrite (l0_init_shape img _lambda N M C Hs) in Hinit.
    destruct (decide (2 ≤ N ∧ 2 ≤ M)) as [Hb|Hb].
    + rewrite bool_decide_eq_true_2 in Hinit by done.
      injection Hinit as <-. exists N, M, C. by destruct Hb.
    + by rewrite bool_decide_eq_false_2 in Hinit by done.
  - by rewrite l0_init_rank in Hinit.
Qed.
End Init.

(** X2: the initialisation succeeds exactly on the 3-dimensional images
    with at least two rows and two columns, whatever their samples and
    the number of their channels. *)
Theorem init_succeeds_iff_two_rows_and_columns {NM : Numerics}
    (img : ndarray Z) (_lambda : Py.float) :
  returns (l0_init img _lambda)
  ↔ ∃ N M C, shape img = [N; M; C] ∧ 2 ≤ N ∧ 2 ≤ M.
Proof.
  split.
  - intros [iv (N & M & C & Hs & HN & HM & _)%l0_init_Ok].
    by exists N, M, C.
  - intros (N & M & C & Hs & HN & HM).
    rewrite (l0_init_shape img _lambda N M C Hs).
    rewrite bool_decide_eq_true_2 by done. by eexists.
Qed.

(** X3: an image with a single row or a single column is refused before
    the loop with [InvalidArgumentError]: one of the two derivative
    kernels does not fit its (H, W) array. *)
Theorem single_row_or_column_refused {NM : Numerics} (img : ndarray Z)
    (N M C fuel : nat) (_lambda kappa beta_max : Py.float) :
  shape img = [N; M; C] → N < 2 ∨ M < 2 →
  l0_image_smoothing fuel img _lambda kappa beta_max
    = Raise InvalidArgumentError.
Proof.
  intros Hs Hsmall. apply l0_image_smoothing_init_raises.
  rewrite (l0_init_shape img _lambda N M C Hs).
  by rewrite bool_decide_eq_false_2 by lia.
Qed.

Lemma single_row_or_column_refused_witness :
  shape img_pixel = [1; 1; 1] ∧ (1 < 2 ∨ 1 < 2) ∧
  l0_image_smoothing (NM:=f32_numerics) 3 img_pixel
    default_lambda default_kappa default_beta_max
    = Raise InvalidArgumentError.
Proof.
  assert (1 < 2 ∨ 1 < 2) as Hsmall by (left; lia).
  split; [reflexivity|]. split; [exact Hsmall|].
  exact (single_row_or_column_refused (NM:=f32_numerics) img_pixel 1 1 1 3
           default_lambda default_kappa default_beta_max eq_refl Hsmall).
Defined.

(** ** The nested view of the buffer and the normalised image *)

Section View.
Context {A : Type}.
Implicit Types l : list A.

Lemma length_chunks n k l : length (chunks n k l) = n.
Proof. revert l. induction n as [|n IH]; intros l; simpl; [done|]. by rewrite IH. Qed.

Lemma lookup_chunks n k l i :
  i < n → chunks n k l !! i = Some (take k (drop (i * k) l)).
Proof.
  revert l i. induction n as [|n IH]; intros l i Hi; [lia|].
  destruct i as [|i]; simpl; [done|].
  rewrite IH by lia. by rewrite drop_drop.
Qed.

Lemma lookup_chunks_ge n k l i : n ≤ i → chunks n k l !! i = None.
Proof. intros Hi. apply lookup_ge_None. by rewrite length_chunks. Qed.

Lemma has_shape3_view3 N M C l :
  length l = N * (M * C) → has_shape3 N M C (view3 N M C l).
Proof.
  intros Hl. apply has_shape3_lookup. unfold view3. split.
  { by rewrite length_fmap, length_chunks. }
  intros i r. rewrite list_lookup_fmap.
  destruct (decide (i < N)) as [Hi|Hi].
  2:{ by rewrite lookup_chunks_ge by lia. }
  rewrite lookup_chunks by done. simpl. intros [= <-].
  apply has_shape2_lookup. split; [by rewrite length_chunks|].
  intros j p Hp.
  destruct (decide (j < M)) as [Hj|Hj].
  2:{ by rewrite lookup_chunks_ge in Hp by lia. }
  rewrite lookup_chunks in Hp by done. injection Hp as <-.
  rewrite length_take, length_drop, length_take, length_drop. nia.
Qed.

Lemma get3_view3 N M C l i j c :
  i < N → j < M → c < C →
  get3 (view3 N M C l) i j c = l !! (i * (M * C) + j * C + c).
Proof.
  intros Hi Hj Hc. unfold get3, view3.
  rewrite list_lookup_fmap, lookup_chunks by done. simpl.
  rewrite lookup_chunks by done. simpl.
  rewrite lookup_take_lt, lookup_drop, lookup_take_lt, lookup_drop by nia.
  f_equal. lia.
Qed.
End View.

Lemma get3_map3 {A B} (f : A → B) (x : tensor3 A) i j c :
  get3 (map3 f x) i j c = f <$> get3 x i j c.
Proof.
  unfold get3, map3, map2. rewrite list_lookup_fmap.
  destruct (x !! i) as [r|]; simpl; [|done]. rewrite list_lookup_fmap.
  destruct (r !! j) as [p|]; simpl; [|done]. by rewrite list_lookup_fmap.
Qed.

Lemma has_shape3_map3 {A B} (f : A → B) (x : tensor3 A) N M C :
  has_shape3 N M C x → has_shape3 N M C (map3 f x).
Proof.
  intros [HN Hrows]. split; [by unfold map3; rewrite length_fmap|].
  unfold map3. apply Forall_fmap. eapply Forall_impl; [exact Hrows|].
  intros r [HM Hpix]. split; [by unfold map2; rewrite length_fmap|].
  unfold map2. apply Forall_fmap. eapply Forall_impl; [exact Hpix|].
  intros p Hp. simpl. by rewrite length_fmap.
Qed.

Lemma wf_ndarray_rank3 {A} (img : ndarray A) N M C :
  wf_ndarray img → shape img = [N; M; C] → length (buffer img) = N * (M * C).
Proof. unfold wf_ndarray. intros Hwf Hs. rewrite Hs in Hwf. simpl in Hwf. lia. Qed.

Lemma flat_index_lt (N M C i j c : nat) :
  i < N → j < M → c < C → i * (M * C) + j * C + c < N * (M * C).
Proof.
  intros Hi Hj Hc.
  assert (j * C + c < M * C) by nia.
  assert ((i + 1) * (M * C) ≤ N * (M * C)) by (apply Nat.mul_le_mono_r; lia).
  lia.
Qed.

Lemma init_normalised {NM : Numerics} (img : ndarray Z) (_lambda : Py.float)
    (iv : init_vars) :
  wf_ndarray img → l0_init img _lambda = Ok iv →
  shape img = [iv_N iv; iv_M iv; iv_C iv] ∧
  has_shape3 (iv_N iv) (iv_M iv) (iv_C iv) (iv_S iv) ∧
  ∀ i j c, i < iv_N iv → j < iv_M iv → c < iv_C iv →
    ∃ x, buffer img !! (i * (iv_M iv * iv_C iv) + j * iv_C iv + c) = Some x ∧
         get3 (iv_S iv) i j c = Some (rdiv (r_of_Z x) (r_of_Z 255)).
Proof.
  intros Hwf (N & M & C & Hs & _ & _ & ->)%l0_init_Ok. simpl.
  pose proof (wf_ndarray_rank3 img N M C Hwf Hs) as Hlen.
  split; [done|]. split.
  { by apply has_shape3_map3, has_shape3_view3. }
  intros i j c Hi Hj Hc.
  destruct (lookup_lt_is_Some_2 (buffer img) (i * (M * C) + j * C + c))
    as [x Hx]; [rewrite Hlen; by apply flat_index_lt|].
  exists x. split; [done|].
  by rewrite get3_map3, get3_view3, Hx.
Qed.

(** X4: on a well-formed image the initialisation leaves in [S] a tensor
    of the image's shape (N, M, C) whose sample at (i, j, c) is the
    image's sample at the row-major position of (i, j, c), cast to
    float32 and divided by 255. *)
Theorem init_normalises_image {NM : Numerics} (img : ndarray Z)
    (_lambda : Py.float) (iv : init_vars) :
  wf_ndarray img → l0_init img _lambda = Ok iv →
  shape img = [iv_N iv; iv_M iv; iv_C iv] ∧
  has_shape3 (iv_N iv) (iv_M iv) (iv_C iv) (iv_S iv) ∧
  ∀ i j c, i < iv_N iv → j < iv_M iv → c < iv_C iv →
    ∃ x, buffer img !! (i * (iv_M iv * iv_C iv) + j * iv_C iv + c) = Some x ∧
         get3 (iv_S iv) i j c = Some (rdiv (r_of_Z x) (r_of_Z 255)).
Proof. exact (init_normalised img _lambda iv). Qed.

Lemma init_normalises_image_witness :
  wf_ndarray img_ramp ∧
  l0_init (NM:=f32_numerics) img_ramp default_lambda = Ok iv_ramp ∧
  (shape img_ramp = [iv_N iv_ramp; iv_M iv_ramp; iv_C iv_ramp] ∧
   has_shape3 (iv_N iv_ramp) (iv_M iv_ramp) (iv_C iv_ramp) (iv_S iv_ramp) ∧
   ∀ i j c, i < iv_N iv_ramp → j < iv_M iv_ramp → c < iv_C iv_ramp →
     ∃ x, buffer img_ramp
            !! (i * (iv_M iv_ramp * iv_C iv_ramp) + j * iv_C iv_ramp + c)
          = Some x ∧
          get3 (iv_S iv_ramp) i j c = Some (rdiv (r_of_Z x) (r_of_Z 255))).
Proof.
  assert (wf_ndarray img_ramp) as Hwf by reflexivity.
  assert (l0_init (NM:=f32_numerics) img_ramp default_lambda = Ok iv_ramp)
    as Hinit by reflexivity.
  split; [exact Hwf|]. split; [exact Hinit|].
  exact (init_normalises_image img_ramp default_lambda iv_ramp Hwf Hinit).
Defined.

(** ** The right-hand side of the image subproblem *)

Section AdjointDiff.
Context {X : Type} (sub : X → X → X) (neg : X → X).

Lemma adjoint_diff_unfold n l :
  length l = n →
  adjoint_diff sub neg n l =
    zip_with sub (drop (n - 1) l) (take 1 l)
    ++ (neg <$> zip_with sub (drop 1 l) (take (n - 1) l)).
Proof.
  intros Hn. unfold adjoint_diff.
  by rewrite py_slice_from_1, py_slice_to_last, py_slice_0_1,
    (py_slice_last n l Hn), Hn.
Qed.

Lemma length_adjoint_diff n l :
  length l = n → length (adjoint_diff sub neg n l) = n.
Proof.
  intros Hn. rewrite adjoint_diff_unfold by done.
  rewrite length_app, length_fmap, !length_zip_with,
    !length_drop, !length_take. lia.
Qed.

Lemma lookup_adjoint_diff n l j a b :
  length l = n →
  l !! j = Some a → l !! prev_index n j = Some b →
  adjoint_diff sub neg n l !! j
    = Some (if decide (j = 0) then sub b a else neg (sub a b)).
Proof.
  intros Hn Ha Hb. rewrite adjoint_diff_unfold by done.
  assert (j < n) as Hj by (rewrite <-Hn; by eapply lookup_lt_Some).
  unfold prev_index in Hb. destruct (decide (j = 0)) as [->|Hne].
  - rewrite lookup_app_l
      by (rewrite length_zip_with, length_drop, length_take; lia).
    rewrite lookup_zip_with, lookup_drop, lookup_take_lt by lia.
    replace (n - 1 + 0) with (n - 1) by lia. by rewrite Hb, Ha.
  - rewrite lookup_app_r
      by (rewrite length_zip_with, length_drop, length_take; lia).
    rewrite length_zip_with, length_drop, length_take.
    replace (j - (length l - (n - 1)) `min` (1 `min` length l)) with (j - 1)
      by lia.
    rewrite list_lookup_fmap, lookup_zip_with, lookup_drop,
      lookup_take_lt by lia.
    replace (1 + (j - 1)) with j by lia. by rewrite Ha, Hb.
Qed.
End AdjointDiff.

Section Shapes.
Context {A B D : Type}.

Lemma has_shape2_zip2 (f : A → B → D) (x : tensor2 A) (y : tensor2 B) M C :
  has_shape2 M C x → has_shape2 M C y → has_shape2 M C (zip2 f x y).
Proof.
  intros [Hx Hxr]%has_shape2_lookup [Hy Hyr]%has_shape2_lookup.
  apply has_shape2_lookup. unfold zip2. split.
  - rewrite length_zip_with. lia.
  - intros j p (a & b & -> & Ha & Hb)%lookup_zip_with_Some.
    rewrite length_zip_with, (Hxr _ _ Ha), (Hyr _ _ Hb). lia.
Qed.

Lemma has_shape3_zip3 (f : A → B → D) (x : tensor3 A) (y : tensor3 B) N M C :
  has_shape3 N M C x → has_shape3 N M C y → has_shape3 N M C (zip3 f x y).
Proof.
  intros [Hx Hxr]%has_shape3_lookup [Hy Hyr]%has_shape3_lookup.
  apply has_shape3_lookup. unfold zip3. split.
  - rewrite length_zip_with. lia.
  - intros i r (a & b & -> & Ha & Hb)%lookup_zip_with_Some.
    apply has_shape2_zip2; [by eapply Hxr|by eapply Hyr].
Qed.

Lemma has_shape2_map2 (f : A → B) (x : tensor2 A) M C :
  has_shape2 M C x → has_shape2 M C (map2 f x).
Proof.
  intros [HM Hpix]. split; [by unfold map2; rewrite length_fmap|].
  unfold map2. apply Forall_fmap. eapply Forall_impl; [exact Hpix|].
  intros p Hp. simpl. by rewrite length_fmap.
Qed.
End Shapes.

Section Numer2.
Context {NM : Numerics}.

Lemma compute_numer2_unfold (S h v : tensor3 real) (N M : nat) :
  compute_numer2 S h v N M =
    zip3 radd
      (zip3 radd (zeros_like S)
         (adjoint_diff (zip_with rsub) (fmap rneg) M <$> h))
      (adjoint_diff (zip2 rsub) (map2 rneg) N v).
Proof.
  unfold compute_numer2. f_equal. f_equal.
  apply list_eq. intros i.
  unfold concat_axis1, zip3, map3, adjoint_diff.
  rewrite lookup_zip_with, !list_lookup_fmap, !lookup_zip_with,
    !list_lookup_fmap.
  by destruct (h !! i).
Qed.

Lemma has_shape3_numer2_h (h : tensor3 real) N M C :
  has_shape3 N M C h →
  has_shape3 N M C (adjoint_diff (zip_with rsub) (fmap rneg) M <$> h).
Proof.
  intros [HN Hrows]%has_shape3_lookup. apply has_shape3_lookup.
  split; [by rewrite length_fmap|].
  intros i r. rewrite list_lookup_fmap.
  destruct (h !! i) as [hr|] eqn:Hhr; [|done]. intros [= <-].
  pose proof (Hrows _ _ Hhr) as [HM Hpix]%has_shape2_lookup.
  apply has_shape2_lookup. split; [by apply length_adjoint_diff|].
  intros j p Hp.
  assert (j < M) as Hj.
  { erewrite <-(length_adjoint_diff _ _ M hr) by done.
    by eapply lookup_lt_Some. }
  destruct (lookup_lt_is_Some_2 hr j) as [a Ha]; [lia|].
  destruct (lookup_lt_is_Some_2 hr (prev_index M j)) as [b Hb].
  { unfold prev_index. case_decide; lia. }
  rewrite (lookup_adjoint_diff _ _ M hr j a b) in Hp by done.
  injection Hp as <-. pose proof (Hpix _ _ Ha). pose proof (Hpix _ _ Hb).
  case_decide; rewrite ?length_fmap, length_zip_with; lia.
Qed.

Lemma has_shape3_numer2_v (v : tensor3 real) N M C :
  has_shape3 N M C v →
  has_shape3 N M C (adjoint_diff (zip2 rsub) (map2 rneg) N v).
Proof.
  intros [HN Hrows]%has_shape3_lookup. apply has_shape3_lookup.
  split; [by apply length_adjoint_diff|].
  intros i r Hr.
  assert (i < N) as Hi.
  { erewrite <-(length_adjoint_diff _ _ N v) by done.
    by eapply lookup_lt_Some. }
  destruct (lookup_lt_is_Some_2 v i) as [a Ha]; [lia|].
  destruct (lookup_lt_is_Some_2 v (prev_index N i)) as [b Hb].
  { unfold prev_index. case_decide; lia. }
  rewrite (lookup_adjoint_diff _ _ N v i a b) in Hr by done.
  injection Hr as <-. pose proof (Hrows _ _ Ha). pose proof (Hrows _ _ Hb).
  case_decide; [|apply has_shape2_map2]; by apply has_shape2_zip2.
Qed.

Lemma has_shape3_compute_numer2 (S h v : tensor3 real) N M C :
  has_shape3 N M C S → has_shape3 N M C h → has_shape3 N M C v →
  has_shape3 N M C (compute_numer2 S h v N M).
Proof.
  intros HS Hh Hv. rewrite compute_numer2_unfold.
  apply has_shape3_zip3; [apply has_shape3_zip3|].
  - by apply has_shape3_map3.
  - by apply has_shape3_numer2_h.
  - by apply has_shape3_numer2_v.
Qed.

Lemma get3_zip3 (f : real → real → real) (x y : tensor3 real) i j c a b :
  get3 x i j c = Some a → get3 y i j c = Some b →
  get3 (zip3 f x y) i j c = Some (f a b).
Proof.
  intros (xr & xp & Hxr & Hxp & Ha)%get3_Some (yr & yp & Hyr & Hyp & Hb)%get3_Some.
  unfold get3, zip3, zip2. rewrite lookup_zip_with, Hxr, Hyr. simpl.
  rewrite lookup_zip_with, Hxp, Hyp. simpl.
  by rewrite lookup_zip_with, Ha, Hb.
Qed.

Lemma get3_numer2_h (h : tensor3 real) N M C i j c hc hp :
  has_shape3 N M C h →
  get3 h i j c = Some hc → get3 h i (prev_index M j) c = Some hp →
  get3 (adjoint_diff (zip_with rsub) (fmap rneg) M <$> h) i j c
    = Some (adjoint_term j hp hc).
Proof.
  intros [HN Hrows]%has_shape3_lookup.
  intros (r & p & Hr & Hp & Ha)%get3_Some (r' & q & Hr' & Hq & Hb)%get3_Some.
  assert (r' = r) as -> by congruence.
  pose proof (Hrows _ _ Hr) as [HM _].
  apply get3_Some. eexists _, _. split; [by rewrite list_lookup_fmap, Hr|].
  split; [by apply lookup_adjoint_diff|].
  unfold adjoint_term. case_decide.
  - by rewrite lookup_zip_with, Hb, Ha.
  - by rewrite list_lookup_fmap, lookup_zip_with, Ha, Hb.
Qed.

Lemma get3_numer2_v (v : tensor3 real) N M C i j c vc vp :
  has_shape3 N M C v →
  get3 v i j c = Some vc → get3 v (prev_index N i) j c = Some vp →
  get3 (adjoint_diff (zip2 rsub) (map2 rneg) N v) i j c
    = Some (adjoint_term i vp vc).
Proof.
  intros [HN Hrows]%has_shape3_lookup.
  intros (r & p & Hr & Hp & Ha)%get3_Some (s & q & Hs & Hq & Hb)%get3_Some.
  pose proof (lookup_adjoint_diff (zip2 rsub) (map2 rneg) N v i r s HN Hr Hs)
    as Hrow.
  apply get3_Some. unfold adjoint_term.
  destruct (decide (i = 0)) as [Hi|Hi].
  - exists (zip2 rsub s r), (zip_with rsub q p). split; [done|].
    unfold zip2. split; [by rewrite lookup_zip_with, Hq, Hp|].
    by rewrite lookup_zip_with, Hb, Ha.
  - exists (map2 rneg (zip2 rsub r s)), (rneg <$> zip_with rsub p q).
    split; [done|]. unfold zip2, map2.
    split; [by rewrite list_lookup_fmap, lookup_zip_with, Hp, Hq|].
    by rewrite list_lookup_fmap, lookup_zip_with, Ha, Hb.
Qed.

Lemma numer2_adjoint (S h v : tensor3 real) N M C :
  has_shape3 N M C S → has_shape3 N M C h → has_shape3 N M C v →
  has_shape3 N M C (compute_numer2 S h v N M) ∧
  adjoint_differences N M h v (compute_numer2 S h v N M).
Proof.
  intros HS Hh Hv. split; [by apply has_shape3_compute_numer2|].
  intros i j c hc hp vc vp Hhc Hhp Hvc Hvp.
  rewrite compute_numer2_unfold.
  assert (∃ s, get3 S i j c = Some s) as [s Hs].
  { pose proof Hhc as (r & p & Hr & Hp & Ha)%get3_Some.
    pose proof Hh as [HhN Hhr]%has_shape3_lookup.
    pose proof HS as [HSN HSr]%has_shape3_lookup.
    pose proof (Hhr _ _ Hr) as [HhM Hhpix]%has_shape2_lookup.
    destruct (lookup_lt_is_Some_2 S i) as [sr Hsr];
      [apply lookup_lt_Some in Hr; lia|].
    pose proof (HSr _ _ Hsr) as [HSM HSpix]%has_shape2_lookup.
    destruct (lookup_lt_is_Some_2 sr j) as [sp Hsp];
      [apply lookup_lt_Some in Hp; lia|].
    destruct (lookup_lt_is_Some_2 sp c) as [s Hs].
    { apply lookup_lt_Some in Ha. rewrite (HSpix _ _ Hsp).
      by rewrite (Hhpix _ _ Hp) in Ha. }
    exists s. apply get3_Some. eauto. }
  apply get3_zip3; [apply get3_zip3|].
  - unfold zeros_like. by rewrite get3_map3, Hs.
  - by eapply get3_numer2_h.
  - by eapply get3_numer2_v.
Qed.
End Numer2.

(** X5: the right-hand side [numer2] built at the end of a pass has the
    shape (N, M, C) of the image and is, sample by sample, zero plus the
    adjoint circular difference of [h] along the columns plus that of [v]
    along the rows: [h[i][M-1] - h[i][0]] in column 0 and
    [-(h[i][j] - h[i][j-1])] in the columns [j >= 1], likewise for [v]
    along the rows. *)
Theorem numer2_is_adjoint_difference {NM : Numerics}
    (S h v : tensor3 real) (N M C : nat) :
  has_shape3 N M C S → has_shape3 N M C h → has_shape3 N M C v →
  has_shape3 N M C (compute_numer2 S h v N M) ∧
  adjoint_differences N M h v (compute_numer2 S h v N M).
Proof. exact (numer2_adjoint S h v N M C). Qed.

Lemma numer2_is_adjoint_difference_witness :
  has_shape3 2 2 1 S_corner ∧ has_shape3 2 2 1 h_corner ∧
  has_shape3 2 2 1 v_corner ∧
  (has_shape3 2 2 1 (compute_numer2 S_corner h_corner v_corner 2 2) ∧
   adjoint_differences 2 2 h_corner v_corner
     (compute_numer2 S_corner h_corner v_corner 2 2)).
Proof.
  assert (has_shape3 2 2 1 S_corner) as HS.
  { split; [reflexivity|]. repeat constructor. }
  assert (has_shape3 2 2 1 h_corner) as Hh.
  { split; [reflexivity|]. repeat constructor. }
  assert (has_shape3 2 2 1 v_corner) as Hv.
  { split; [reflexivity|]. repeat constructor. }
  split; [exact HS|]. split; [exact Hh|]. split; [exact Hv|].
  exact (numer2_is_adjoint_difference (NM:=f32_numerics)
           S_corner h_corner v_corner 2 2 1 HS Hh Hv).
Defined.

(** ** When a pass completes *)

Section Pass.
Context {NM : Numerics}.

Lemma tf_where_nil_iff (t : tensor2 real) (thr : Py.float) :
  tf_where (below_threshold t thr) = [] ↔ ¬ some_pixel_below t thr.
Proof.
  split.
  - intros Hnil (i & j & tij & Ht & Hlt).
    assert ([Z.of_nat i; Z.of_nat j] ∈ tf_where (below_threshold t thr)) as Hin.
    { apply elem_of_tf_where. by rewrite get2_below_threshold, Ht; simpl; rewrite Hlt. }
    rewrite Hnil in Hin. by apply elem_of_nil in Hin.
  - intros Hnone. apply elem_of_nil_inv.
    intros x (m & n & r & -> & Hm & Hn)%elem_of_where_rows.
    assert (get2 (below_threshold t thr) m n = Some true) as Hget
      by (apply get2_Some; eauto).
    rewrite get2_below_threshold in Hget.
    destruct (get2 t m n) as [tij|] eqn:Ht; [|done]. simpl in Hget.
    apply Hnone. exists m, n, tij. split; [done|]. congruence.
Qed.

Lemma tf_where_not_nil (t : tensor2 real) (thr : Py.float) :
  tf_where (below_threshold t thr) ≠ [] → some_pixel_below t thr.
Proof.
  destruct (tf_where (below_threshold t thr)) as [|x l] eqn:Hw; [done|].
  intros _.
  assert (x ∈ tf_where (below_threshold t thr)) as Hin
    by (rewrite Hw; apply elem_of_cons; by left).
  apply elem_of_where_rows in Hin as (m & n & r & -> & Hm & Hn).
  assert (get2 (below_threshold t thr) m n = Some true) as Hget
    by (apply get2_Some; eauto).
  rewrite get2_below_threshold in Hget.
  destruct (get2 t m n) as [tij|] eqn:Ht; [|done]. simpl in Hget.
  exists m, n, tij. split; [done|]. congruence.
Qed.

Ltac outcome_cases :=
  repeat first [split | intro];
  repeat match goal with
         | H : _ ∧ _ |- _ => destruct H
         | H : returns _ |- _ => destruct H
         end;
  try done; try congruence; try (by eexists).

Lemma loop_body_outcome (N M C : nat) (_lambda beta_max : Py.float)
    (denom2 : real_tensor) (st : loop_state) :
  has_shape3 N M C (st_S st) →
  let t := compute_t (compute_h (st_S st) M) (compute_v (st_S st) N) in
  let threshold := Py.div _lambda (st_beta st) in
  let outcome := loop_body N M C _lambda beta_max denom2 st in
  (returns outcome
     ↔ Py.is_zero (st_beta st) = false ∧ some_pixel_below t threshold) ∧
  (outcome = Raise ZeroDivisionError ↔ Py.is_zero (st_beta st) = true) ∧
  (outcome = Raise ValueError
     ↔ Py.is_zero (st_beta st) = false ∧ ¬ some_pixel_below t threshold).
Proof.
  intros HS t threshold outcome.
  assert (has_shape2 N M t) as Ht.
  { eapply has_shape2_compute_t;
      [by apply has_shape3_compute_h|by apply has_shape3_compute_v]. }
  pose proof (compute_t_masked_spec t threshold C N M Ht) as Hmask.
  pose proof (tf_where_nil_iff t threshold) as Hnil.
  subst outcome. unfold loop_body, py_truediv, mbind, outcome_bind.
  fold t. fold threshold.
  destruct (Py.is_zero (st_beta st)); [outcome_cases|].
  rewrite Hmask.
  destruct (decide (tf_where (below_threshold t threshold) = [])) as [He|Hne].
  - apply Hnil in He. outcome_cases.
  - pose proof (tf_where_not_nil t threshold Hne) as Hsome. outcome_cases.
Qed.

Lemma has_shape3_tile_channels {A} (m : tensor2 A) N M C :
  has_shape2 N M m → has_shape3 N M C (tile_channels C m).
Proof.
  intros [HN Hrows]. unfold tile_channels, map2.
  split; [by rewrite length_fmap|].
  apply Forall_fmap. eapply Forall_impl; [exact Hrows|].
  intros r Hr. split; [by simpl; rewrite length_fmap|].
  apply Forall_fmap, Forall_forall. intros b _. simpl. apply length_replicate.
Qed.

Lemma loop_body_shapes (N M C : nat) (_lambda beta_max : Py.float)
    (denom2 : real_tensor) (st st' : loop_state) :
  has_shape3 N M C (st_S st) →
  loop_body N M C _lambda beta_max denom2 st = Ok st' →
  st_S st' = st_S st ∧ ∃ bv, st_body st' = Some bv ∧ body_shapes N M C bv.
Proof.
  intros HS Hbody.
  pose proof Hbody as
    (t_masked & Hmask & HS' & _ & _ & denom & numer2 & Hvars)%loop_body_Ok.
  split; [done|].
  assert (numer2 = compute_numer2 (st_S st)
            (mask_assign_zero (compute_h (st_S st) M) t_masked)
            (mask_assign_zero (compute_v (st_S st) N) t_masked) N M) as ->.
  { revert Hbody Hvars. unfold loop_body, py_truediv, mbind, outcome_bind.
    destruct (Py.is_zero _); [done|]. rewrite Hmask.
    intros [= <-]. simpl. by intros [= _ <-]. }
  eexists. split; [exact Hvars|].
  pose proof (has_shape3_compute_h _ _ _ _ HS) as Hh.
  pose proof (has_shape3_compute_v _ _ _ _ HS) as Hv.
  pose proof (has_shape2_compute_t _ _ _ _ _ Hh Hv) as Ht.
  rewrite (compute_t_masked_spec _ _ C N M Ht) in Hmask.
  destruct (decide _) as [|_]; [done|]. injection Hmask as <-.
  assert (has_shape3 N M C
            (tile_channels C (below_threshold
               (compute_t (compute_h (st_S st) M) (compute_v (st_S st) N))
               (Py.div _lambda (st_beta st))))) as Hm.
  { by apply has_shape3_tile_channels, has_shape2_below_threshold. }
  assert (∀ x : tensor3 real, has_shape3 N M C x →
            has_shape3 N M C (mask_assign_zero x
              (tile_channels C (below_threshold
                 (compute_t (compute_h (st_S st) M) (compute_v (st_S st) N))
                 (Py.div _lambda (st_beta st)))))) as Hmasked.
  { intros x Hx. by apply has_shape3_zip3. }
  unfold body_shapes. simpl.
  split; [exact Hh|]. split; [exact Hv|]. split; [exact Ht|].
  split; [by apply Hmasked|]. split; [by apply Hmasked|].
  apply has_shape3_compute_numer2; [done|by apply Hmasked..].
Qed.
End Pass.

(** X6: a pass through the body completes exactly when [beta] is not zero
    and at least one pixel has its gradient energy below the threshold;
    it raises [ZeroDivisionError] exactly when [beta] is zero, and
    [ValueError] exactly when [beta] is not zero and no pixel is below the
    threshold. *)
Theorem pass_outcome {NM : Numerics} (N M C : nat)
    (_lambda beta_max : Py.float) (denom2 : real_tensor) (st : loop_state) :
  has_shape3 N M C (st_S st) →
  let t := compute_t (compute_h (st_S st) M) (compute_v (st_S st) N) in
  let threshold := Py.div _lambda (st_beta st) in
  let outcome := loop_body N M C _lambda beta_max denom2 st in
  (returns outcome
     ↔ Py.is_zero (st_beta st) = false ∧ some_pixel_below t threshold) ∧
  (outcome = Raise ZeroDivisionError ↔ Py.is_zero (st_beta st) = true) ∧
  (outcome = Raise ValueError
     ↔ Py.is_zero (st_beta st) = false ∧ ¬ some_pixel_below t threshold).
Proof. exact (loop_body_outcome N M C _lambda beta_max denom2 st). Qed.

Lemma pass_outcome_witness :
  has_shape3 2 2 1 (st_S st_corner) ∧
  (let t := compute_t (compute_h (st_S st_corner) 2)
              (compute_v (st_S st_corner) 2) in
   let threshold := Py.div default_lambda (st_beta st_corner) in
   let outcome :=
     loop_body 2 2 1 default_lambda default_beta_max (Rank2 []) st_corner in
   (returns outcome
      ↔ Py.is_zero (st_beta st_corner) = false ∧ some_pixel_below t threshold) ∧
   (outcome = Raise ZeroDivisionError ↔ Py.is_zero (st_beta st_corner) = true) ∧
   (outcome = Raise ValueError
      ↔ Py.is_zero (st_beta st_corner) = false
        ∧ ¬ some_pixel_below t threshold)).
Proof.
  assert (has_shape3 2 2 1 (st_S st_corner)) as HS.
  { split; [reflexivity|]. repeat constructor. }
  split; [exact HS|].
  exact (pass_outcome 2 2 1 default_lambda default_beta_max (Rank2 [])
           st_corner HS).
Defined.

(** X7: a completed pass keeps [S] and leaves every variable of the body
    with the shape of the image: [h], [v] before and after the masking
    and [numer2] with (N, M, C), [t] with (N, M). *)
Theorem pass_keeps_shapes {NM : Numerics} (N M C : nat)
    (_lambda beta_max : Py.float) (denom2 : real_tensor)
    (st st' : loop_state) :
  has_shape3 N M C (st_S st) →
  loop_body N M C _lambda beta_max denom2 st = Ok st' →
  st_S st' = st_S st ∧ ∃ bv, st_body st' = Some bv ∧ body_shapes N M C bv.
Proof. exact (loop_body_shapes N M C _lambda beta_max denom2 st st'). Qed.

Lemma pass_keeps_shapes_witness :
  has_shape3 2 2 1 (st_S st_corner) ∧
  loop_body 2 2 1 default_lambda default_beta_max (Rank2 []) st_corner
    = Ok st_corner' ∧
  (st_S st_corner' = st_S st_corner ∧
   ∃ bv, st_body st_corner' = Some bv ∧ body_shapes 2 2 1 bv).
Proof.
  assert (has_shape3 2 2 1 (st_S st_corner)) as HS.
  { split; [reflexivity|]. repeat constructor. }
  assert (loop_body 2 2 1 default_lambda default_beta_max (Rank2 []) st_corner
          = Ok st_corner') as Hrun by reflexivity.
  split; [exact HS|]. split; [exact Hrun|].
  exact (pass_keeps_shapes 2 2 1 default_lambda default_beta_max (Rank2 [])
           st_corner st_corner' HS Hrun).
Defined.

(** ** The run of the loop *)

Section Run.
Context {NM : Numerics}.

Lemma l0_run_once (fuel : nat) (img : ndarray Z)
    (_lambda kappa beta_max : Py.float) :
  l0_run (S fuel) img _lambda kappa beta_max
    = l0_run 1 img _lambda kappa beta_max.
Proof.
  unfold l0_run, mbind, outcome_bind.
  destruct (l0_init img _lambda) as [iv| |]; [|done..].
  by rewrite !while_loop_once.
Qed.

Lemma l0_run_not_OutOfFuel (fuel : nat) (img : ndarray Z)
    (_lambda kappa beta_max : Py.float) :
  returns (l0_run (S fuel) img _lambda kappa beta_max)
  ∨ raises (l0_run (S fuel) img _lambda kappa beta_max).
Proof.
  unfold l0_run, mbind, outcome_bind.
  destruct (l0_init img _lambda) as [iv|e|] eqn:Hinit.
  - pose proof (while_loop_terminates (iv_N iv) (iv_M iv) (iv_C iv) _lambda
                  beta_max (iv_denom2 iv) fuel
                  (LoopState (iv_S iv) (iv_beta iv) None [])) as Hterm.
    destruct (while_loop _ _ _ _ _ _ _ _) as [st|e|]; [| |done].
    + left. by eexists.
    + right. by eexists.
  - right. by eexists.
  - exfalso. revert Hinit. unfold l0_init, mbind, outcome_bind.
    destruct (unpack3 (shape img)) as [[[N M] C]| |] eqn:Hu;
      [| |by destruct (shape img) as [|a [|b [|c [|d s]]]]].
    + assert (shape img = [N; M; C]) as Hs.
      { by destruct (shape img) as [|a [|b [|c [|d s]]]]; try done;
          injection Hu as -> -> ->. }
      pose proof (l0_init_shape img _lambda N M C Hs) as Hl.
      unfold l0_init, mbind, outcome_bind in Hl. rewrite Hu in Hl.
      rewrite Hl. by destruct (bool_decide _).
    + done.
Qed.

Lemma l0_run_state (fuel : nat) (img : ndarray Z)
    (_lambda kappa beta_max : Py.float) (iv : init_vars) (st : loop_state) :
  l0_run (S fuel) img _lambda kappa beta_max = Ok (iv, st) →
  l0_init img _lambda = Ok iv ∧ state_after_run beta_max iv st.
Proof.
  unfold l0_run, mbind, outcome_bind.
  destruct (l0_init img _lambda) as [iv'| |]; [|done..].
  rewrite while_loop_once. cbn [st_beta].
  unfold state_after_run.
  destruct (Py.ltb (iv_beta iv') beta_max) eqn:Hlt.
  - destruct (loop_body _ _ _ _ _ _ _) as [st'| |] eqn:Hb; [|done..].
    intros [= <- <-]. rewrite Hlt. split; [done|].
    by apply loop_body_Ok in Hb as (_ & _ & -> & -> & -> & _).
  - intros [= <- <-]. by rewrite Hlt.
Qed.

Lemma l0_run_no_pass (fuel : nat) (img : ndarray Z)
    (_lambda kappa beta_max : Py.float) (iv : init_vars) :
  l0_init img _lambda = Ok iv → Py.ltb (iv_beta iv) beta_max = false →
  l0_run fuel img _lambda kappa beta_max
    = Ok (iv, LoopState (iv_S iv) (iv_beta iv) None []) ∧
  l0_image_smoothing fuel img _lambda kappa beta_max = Ok PyNone.
Proof.
  intros Hinit Hlt.
  assert (l0_run fuel img _lambda kappa beta_max
          = Ok (iv, LoopState (iv_S iv) (iv_beta iv) None [])) as Hrun.
  { unfold l0_run, mbind, outcome_bind. rewrite Hinit.
    destruct fuel; simpl; by rewrite Hlt. }
  split; [done|].
  unfold l0_image_smoothing, mbind, outcome_bind. by rewrite Hrun.
Qed.

Lemma py_mul_zero (x : Py.float) :
  Py.is_zero x = true → Py.is_zero (Py.mul (Py.of_Z 2) x) = true.
Proof. by destruct x. Qed.

Lemma l0_run_zero_lambda (fuel : nat) (img : ndarray Z)
    (_lambda kappa beta_max : Py.float) :
  Py.is_zero _lambda = true →
  Py.ltb (Py.mul (Py.of_Z 2) _lambda) beta_max = true →
  returns (l0_init img _lambda) →
  l0_image_smoothing (S fuel) img _lambda kappa beta_max
    = Raise ZeroDivisionError.
Proof.
  intros Hzero Hlt [iv Hinit].
  pose proof Hinit as (N & M & C & _ & _ & _ & Hiv)%l0_init_Ok.
  assert (iv_beta iv = Py.mul (Py.of_Z 2) _lambda) as Hbeta by (by rewrite Hiv).
  unfold l0_image_smoothing, l0_run, mbind, outcome_bind. rewrite Hinit.
  rewrite while_loop_once. cbn [st_beta]. rewrite Hbeta, Hlt.
  unfold loop_body, py_truediv, mbind, outcome_bind. cbn [st_beta].
  by rewrite py_mul_zero.
Qed.

Lemma l0_init_denom2 (img : ndarray Z) (_lambda : Py.float) (iv : init_vars) :
  l0_init img _lambda = Ok iv → same_in_every_channel (iv_C iv) (iv_denom2 iv).
Proof.
  intros (N & M & C & _ & _ & _ & ->)%l0_init_Ok. simpl.
  destruct (decide (1 < C)) as [HC|HC]; simpl; [|lia].
  split; [done|]. intros i j c c' Hc Hc'.
  rewrite !get3_tile_channels. destruct (get2 _ i j); simpl; [|done].
  by rewrite !decide_True.
Qed.
End Run.

(** X8: the loop always terminates: whatever the image and the
    parameters (NaN included), the run ends by returning or by raising,
    and more than one unit of fuel changes nothing, the body being
    entered at most once. *)
Theorem run_ends_within_one_pass {NM : Numerics} (fuel : nat)
    (img : ndarray Z) (_lambda kappa beta_max : Py.float) :
  (returns (l0_run (S fuel) img _lambda kappa beta_max)
   ∨ raises (l0_run (S fuel) img _lambda kappa beta_max)) ∧
  l0_run (S fuel) img _lambda kappa beta_max
    = l0_run 1 img _lambda kappa beta_max.
Proof.
  split; [apply l0_run_not_OutOfFuel|apply l0_run_once].
Qed.

(** X9: when the run returns, [S] is still the normalised image of the
    initialisation; the body was entered exactly once, with
    [beta = 2 * _lambda], if that was below [beta_max], and then [beta]
    ends at [beta_max]; otherwise the body was not entered. *)
Theorem run_final_state {NM : Numerics} (fuel : nat) (img : ndarray Z)
    (_lambda kappa beta_max : Py.float) (iv : init_vars) (st : loop_state) :
  l0_run (S fuel) img _lambda kappa beta_max = Ok (iv, st) →
  l0_init img _lambda = Ok iv ∧ state_after_run beta_max iv st.
Proof. exact (l0_run_state fuel img _lambda kappa beta_max iv st). Qed.

Lemma run_final_state_witness :
  l0_run (NM:=f32_numerics) 1 img_ramp default_lambda default_kappa
    default_beta_max = Ok (iv_ramp, st_ramp') ∧
  (l0_init img_ramp default_lambda = Ok iv_ramp ∧
   state_after_run default_beta_max iv_ramp st_ramp').
Proof.
  assert (l0_run (NM:=f32_numerics) 1 img_ramp default_lambda default_kappa
            default_beta_max = Ok (iv_ramp, st_ramp')) as Hrun by reflexivity.
  split; [exact Hrun|].
  exact (run_final_state 0 img_ramp default_lambda default_kappa
           default_beta_max iv_ramp st_ramp' Hrun).
Defined.

(** X10: when the initial [beta = 2 * _lambda] is not below [beta_max]
    (equal to it, above it, or one of them NaN), the body is never
    entered: the run ends with the variables of the initialisation and
    the function returns [None]. *)
Theorem no_pass_when_beta_not_below_beta_max {NM : Numerics} (fuel : nat)
    (img : ndarray Z) (_lambda kappa beta_max : Py.float) (iv : init_vars) :
  l0_init img _lambda = Ok iv → Py.ltb (iv_beta iv) beta_max = false →
  l0_run fuel img _lambda kappa beta_max
    = Ok (iv, LoopState (iv_S iv) (iv_beta iv) None []) ∧
  l0_image_smoothing fuel img _lambda kappa beta_max = Ok PyNone.
Proof. exact (l0_run_no_pass fuel img _lambda kappa beta_max iv). Qed.

Lemma no_pass_when_beta_not_below_beta_max_witness :
  l0_init (NM:=f32_numerics) img_ramp default_lambda = Ok iv_ramp ∧
  Py.ltb (iv_beta iv_ramp) beta_max_at_start = false ∧
  (l0_run 0 img_ramp default_lambda default_kappa beta_max_at_start
     = Ok (iv_ramp, st_ramp_untouched) ∧
   l0_image_smoothing (NM:=f32_numerics) 0 img_ramp default_lambda
     default_kappa beta_max_at_start = Ok PyNone).
Proof.
  assert (l0_init (NM:=f32_numerics) img_ramp default_lambda = Ok iv_ramp)
    as Hinit by reflexivity.
  assert (Py.ltb (iv_beta iv_ramp) beta_max_at_start = false)
    as Hlt by reflexivity.
  split; [exact Hinit|]. split; [exact Hlt|].
  exact (no_pass_when_beta_not_below_beta_max 0 img_ramp default_lambda
           default_kappa beta_max_at_start iv_ramp Hinit Hlt).
Defined.

(** X11: with [_lambda] zero and a positive [beta_max], [beta] starts at
    zero, the body is entered and the threshold [_lambda / beta] divides
    by zero: the function raises [ZeroDivisionError]. *)
Theorem zero_lambda_divides_by_zero {NM : Numerics} (fuel : nat)
    (img : ndarray Z) (_lambda kappa beta_max : Py.float) :
  Py.is_zero _lambda = true →
  Py.ltb (Py.mul (Py.of_Z 2) _lambda) beta_max = true →
  returns (l0_init img _lambda) →
  l0_image_smoothing (S fuel) img _lambda kappa beta_max
    = Raise ZeroDivisionError.
Proof. exact (l0_run_zero_lambda fuel img _lambda kappa beta_max). Qed.

Lemma zero_lambda_divides_by_zero_witness :
  Py.is_zero zero_lambda = true ∧
  Py.ltb (Py.mul (Py.of_Z 2) zero_lambda) default_beta_max = true ∧
  returns (l0_init (NM:=f32_numerics) img_ramp zero_lambda) ∧
  l0_image_smoothing (NM:=f32_numerics) 1 img_ramp zero_lambda
    default_kappa default_beta_max = Raise ZeroDivisionError.
Proof.
  assert (returns (l0_init (NM:=f32_numerics) img_ramp zero_lambda)) as Hinit.
  { exists (init_vars_of img_ramp zero_lambda 2 2 1). reflexivity. }
  split; [reflexivity|]. split; [reflexivity|]. split; [exact Hinit|].
  exact (zero_lambda_divides_by_zero (NM:=f32_numerics) 0 img_ramp zero_lambda
           default_kappa default_beta_max eq_refl eq_refl Hinit).
Defined.

(** X12: [denom2] is a rank-2 tensor for an image of at most one channel
    and, for more channels, a rank-3 tensor that holds the same value in
    every channel of a pixel. *)
Theorem denom2_same_in_every_channel {NM : Numerics} (img : ndarray Z)
    (_lambda : Py.float) (iv : init_vars) :
  l0_init img _lambda = Ok iv → same_in_every_channel (iv_C iv) (iv_denom2 iv).
Proof. exact (l0_init_denom2 img _lambda iv). Qed.

Lemma denom2_same_in_every_channel_witness :
  l0_init (NM:=f32_numerics) img_rgb default_lambda = Ok iv_rgb ∧
  same_in_every_channel (iv_C iv_rgb) (iv_denom2 iv_rgb).
Proof.
  assert (l0_init (NM:=f32_numerics) img_rgb default_lambda = Ok iv_rgb)
    as Hinit by reflexivity.
  split; [exact Hinit|].
  exact (denom2_same_in_every_channel img_rgb default_lambda iv_rgb Hinit).
Defined.

(** ** A flat image *)

Lemma get3_bounds {A} (x : tensor3 A) N M C i j c y :
  has_shape3 N M C x → get3 x i j c = Some y → i < N ∧ j < M ∧ c < C.
Proof.
  intros [HN Hrows]%has_shape3_lookup (r & p & Hr & Hp & Hy)%get3_Some.
  pose proof (Hrows _ _ Hr) as [HM Hpix]%has_shape2_lookup.
  pose proof (Hpix _ _ Hp) as HC.
  apply lookup_lt_Some in Hr, Hp, Hy. lia.
Qed.

Lemma get3_is_Some {A} (x : tensor3 A) N M C i j c :
  has_shape3 N M C x → i < N → j < M → c < C → ∃ y, get3 x i j c = Some y.
Proof.
  intros [HN Hrows]%has_shape3_lookup Hi Hj Hc.
  destruct (lookup_lt_is_Some_2 x i) as [r Hr]; [lia|].
  pose proof (Hrows _ _ Hr) as [HM Hpix]%has_shape2_lookup.
  destruct (lookup_lt_is_Some_2 r j) as [p Hp]; [lia|].
  pose proof (Hpix _ _ Hp) as HC.
  destruct (lookup_lt_is_Some_2 p c) as [y Hy]; [lia|].
  exists y. apply get3_Some. eauto.
Qed.

Lemma f32_sub_diag (a : spec_float) :
  f32_finite a → F32.sub a a = S754_zero false.
Proof.
  destruct a as [[]|[]| |s m e]; try done. intros _.
  unfold F32.sub, SFsub. by rewrite Z.sub_diag.
Qed.

Lemma f32_energy_zero (hp vp : list spec_float) :
  Forall (λ y, y = S754_zero false) hp → Forall (λ y, y = S754_zero false) vp →
  pixel_energy (NM:=f32_numerics) hp vp = S754_zero false.
Proof.
  unfold pixel_energy. intros Hh. revert vp.
  induction Hh as [|y hp -> _ IH]; intros vp Hv; [done|].
  destruct Hv as [|z vp -> Hv]; [done|]. simpl. by apply IH.
Qed.

Lemma flat_mask_assign_zero {NM : Numerics} (x : tensor3 real)
    (mask : tensor3 bool) :
  flat_tensor x rzero → flat_tensor (mask_assign_zero x mask) rzero.
Proof.
  intros Hflat i j c y. rewrite get3_mask_assign_zero.
  destruct (get3 x i j c) as [a|] eqn:Ha; simpl; [|done].
  destruct (get3 mask i j c) as [b|]; simpl; [|done].
  intros [= <-]. rewrite (Hflat _ _ _ _ Ha). by destruct b.
Qed.

Section Flat.
Variables (N M C : nat) (_lambda beta_max : Py.float)
          (denom2 : real_tensor (NM:=f32_numerics)).

Lemma flat_compute_h (S : tensor3 spec_float) (a : spec_float) :
  has_shape3 N M C S → flat_tensor S a → f32_finite a →
  flat_tensor (compute_h (NM:=f32_numerics) S M) (S754_zero false).
Proof.
  intros HS Hflat Ha i j c y Hy.
  pose proof (get3_bounds _ N M C i j c y
                (has_shape3_compute_h (NM:=f32_numerics) S N M C HS) Hy) as (Hi & Hj & Hc).
  destruct (get3_is_Some S N M C i j c HS Hi Hj Hc) as [x Hx].
  destruct (get3_is_Some S N M C i (next_index M j) c HS Hi) as [x' Hx'];
    [unfold next_index; case_decide; lia|done|].
  rewrite (get3_compute_h (NM:=f32_numerics) S N M C i j c x x' HS Hx Hx') in Hy.
  injection Hy as <-. rewrite (Hflat _ _ _ _ Hx), (Hflat _ _ _ _ Hx').
  change (F32.add (S754_zero false) (F32.sub a a) = S754_zero false).
  by rewrite f32_sub_diag.
Qed.

Lemma flat_compute_v (S : tensor3 spec_float) (a : spec_float) :
  has_shape3 N M C S → flat_tensor S a → f32_finite a →
  flat_tensor (compute_v (NM:=f32_numerics) S N) (S754_zero false).
Proof.
  intros HS Hflat Ha i j c y Hy.
  pose proof (get3_bounds _ N M C i j c y
                (has_shape3_compute_v (NM:=f32_numerics) S N M C HS) Hy) as (Hi & Hj & Hc).
  destruct (get3_is_Some S N M C i j c HS Hi Hj Hc) as [x Hx].
  destruct (get3_is_Some S N M C (next_index N i) j c HS) as [x' Hx'];
    [unfold next_index; case_decide; lia|done..|].
  rewrite (get3_compute_v (NM:=f32_numerics) S N M C i j c x x' HS Hx Hx') in Hy.
  injection Hy as <-. rewrite (Hflat _ _ _ _ Hx), (Hflat _ _ _ _ Hx').
  change (F32.add (S754_zero false) (F32.sub a a) = S754_zero false).
  by rewrite f32_sub_diag.
Qed.

Lemma flat_pixel (x : tensor3 spec_float) (a : spec_float) i j p :
  flat_tensor x a → get2 x i j = Some p → Forall (λ y, y = a) p.
Proof.
  intros Hflat (r & Hr & Hp)%get2_Some. apply Forall_lookup.
  intros c y Hy. apply (Hflat i j c). apply get3_Some. eauto.
Qed.

Lemma flat_compute_numer2 (S h v : tensor3 spec_float) :
  has_shape3 N M C S → has_shape3 N M C h → has_shape3 N M C v →
  flat_tensor h (S754_zero false) → flat_tensor v (S754_zero false) →
  flat_tensor (compute_numer2 (NM:=f32_numerics) S h v N M) (S754_zero false).
Proof.
  intros HS Hh Hv Fh Fv i j c y Hy.
  destruct (numer2_adjoint (NM:=f32_numerics) S h v N M C HS Hh Hv) as [Hshape Hadj].
  pose proof (get3_bounds _ N M C i j c y Hshape Hy) as (Hi & Hj & Hc).
  assert (prev_index M j < M) as Hpj by (unfold prev_index; case_decide; lia).
  assert (prev_index N i < N) as Hpi by (unfold prev_index; case_decide; lia).
  destruct (get3_is_Some h N M C i j c Hh Hi Hj Hc) as [hc Hhc].
  destruct (get3_is_Some h N M C i (prev_index M j) c Hh Hi Hpj Hc) as [hp Hhp].
  destruct (get3_is_Some v N M C i j c Hv Hi Hj Hc) as [vc Hvc].
  destruct (get3_is_Some v N M C (prev_index N i) j c Hv Hpi Hj Hc) as [vp Hvp].
  rewrite (Hadj i j c hc hp vc vp Hhc Hhp Hvc Hvp) in Hy. injection Hy as <-.
  rewrite (Fh _ _ _ _ Hhc), (Fh _ _ _ _ Hhp), (Fv _ _ _ _ Hvc), (Fv _ _ _ _ Hvp).
  unfold adjoint_term. by repeat case_decide.
Qed.

Lemma flat_pass (st : loop_state (NM:=f32_numerics)) (a : spec_float) :
  has_shape3 N M C (st_S st) → 1 ≤ N → 1 ≤ M →
  flat_tensor (st_S st) a → f32_finite a →
  Py.is_zero (st_beta st) = false →
  SFltb (S754_zero false) (F32.of_py (Py.div _lambda (st_beta st))) = true →
  ∃ st', loop_body N M C _lambda beta_max denom2 st = Ok st' ∧
         zero_gradient_pass N M C st st'.
Proof.
  intros HS HN HM Hflat Ha Hbeta Hthr.
  pose proof (flat_compute_h _ a HS Hflat Ha) as Fh.
  pose proof (flat_compute_v _ a HS Hflat Ha) as Fv.
  pose proof (has_shape3_compute_h (NM:=f32_numerics) _ _ _ _ HS) as Hh.
  pose proof (has_shape3_compute_v (NM:=f32_numerics) _ _ _ _ HS) as Hv.
  assert (some_pixel_below
            (compute_t (compute_h (st_S st) M) (compute_v (st_S st) N))
            (Py.div _lambda (st_beta st))) as Hsome.
  { exists 0, 0, (S754_zero false). split; [|exact Hthr].
    pose proof Hh as [HhN Hhr]%has_shape3_lookup.
    pose proof Hv as [HvN Hvr]%has_shape3_lookup.
    destruct (lookup_lt_is_Some_2 (compute_h (st_S st) M) 0) as [hr Hhr0]; [lia|].
    destruct (lookup_lt_is_Some_2 (compute_v (st_S st) N) 0) as [vr Hvr0]; [lia|].
    pose proof (Hhr _ _ Hhr0) as [HhM _]. pose proof (Hvr _ _ Hvr0) as [HvM _].
    destruct (lookup_lt_is_Some_2 hr 0) as [hp Hhp]; [lia|].
    destruct (lookup_lt_is_Some_2 vr 0) as [vp Hvp]; [lia|].
    assert (get2 (compute_h (st_S st) M) 0 0 = Some hp) as Gh
      by (apply get2_Some; eauto).
    assert (get2 (compute_v (st_S st) N) 0 0 = Some vp) as Gv
      by (apply get2_Some; eauto).
    rewrite (get2_compute_t (NM:=f32_numerics) _ _ 0 0 hp vp Gh Gv). f_equal.
    apply f32_energy_zero;
      [exact (flat_pixel _ _ 0 0 hp Fh Gh)|exact (flat_pixel _ _ 0 0 vp Fv Gv)]. }
  destruct (loop_body_outcome (NM:=f32_numerics) N M C _lambda beta_max denom2 st HS)
    as [Hret _].
  destruct Hret as [_ [st' Hbody]]; [done|].
  exists st'. split; [done|].
  destruct (loop_body_shapes (NM:=f32_numerics) N M C _lambda beta_max denom2 st st' HS Hbody)
    as (HS' & bv & Hbv & Hshapes).
  split; [done|]. exists bv. split; [done|]. split; [done|].
  revert Hbody Hbv Hshapes. unfold loop_body, py_truediv, mbind, outcome_bind.
  rewrite Hbeta.
  destruct (compute_t_masked _ _ _) as [t_masked| |]; [|done..].
  intros [= <-]. simpl. intros [= <-]. simpl.
  intros (_ & _ & _ & Hh' & Hv' & _).
  split; [by apply (flat_mask_assign_zero (NM:=f32_numerics))|].
  split; [by apply (flat_mask_assign_zero (NM:=f32_numerics))|].
  apply flat_compute_numer2; try done;
    by apply (flat_mask_assign_zero (NM:=f32_numerics)).
Qed.
End Flat.

(** X13: in binary32 arithmetic, a pass over a flat image (every sample of
    [S] the same finite number) with a positive threshold completes and
    leaves [S] as it was, with [h], [v] and [numer2] equal to +0 at every
    sample. *)
Theorem flat_image_has_zero_gradient (N M C : nat)
    (_lambda beta_max : Py.float) (denom2 : real_tensor (NM:=f32_numerics))
    (st : loop_state (NM:=f32_numerics)) (a : spec_float) :
  has_shape3 N M C (st_S st) → 1 ≤ N → 1 ≤ M →
  flat_tensor (st_S st) a → f32_finite a →
  Py.is_zero (st_beta st) = false →
  SFltb (S754_zero false) (F32.of_py (Py.div _lambda (st_beta st))) = true →
  ∃ st', loop_body N M C _lambda beta_max denom2 st = Ok st' ∧
         zero_gradient_pass N M C st st'.
Proof. exact (flat_pass N M C _lambda beta_max denom2 st a). Qed.

Lemma flat_image_has_zero_gradient_witness :
  has_shape3 2 2 1 (st_S st_flat1) ∧ 1 ≤ 2 ∧ 1 ≤ 2 ∧
  flat_tensor (st_S st_flat1) (F32.of_Z 1) ∧ f32_finite (F32.of_Z 1) ∧
  Py.is_zero (st_beta st_flat1) = false ∧
  SFltb (S754_zero false)
    (F32.of_py (Py.div default_lambda (st_beta st_flat1))) = true ∧
  ∃ st', loop_body 2 2 1 default_lambda default_beta_max (Rank2 []) st_flat1
           = Ok st' ∧
         zero_gradient_pass 2 2 1 st_flat1 st'.
Proof.
  assert (has_shape3 2 2 1 (st_S st_flat1)) as HS.
  { split; [reflexivity|]. repeat constructor. }
  assert (flat_tensor (st_S st_flat1) (F32.of_Z 1)) as Hflat.
  { intros [|[|i]] [|[|j]] [|c] x; simpl; intros [= <-]; reflexivity. }
  assert (f32_finite (F32.of_Z 1)) as Ha by exact I.
  split; [exact HS|]. split; [lia|]. split; [lia|].
  split; [exact Hflat|]. split; [exact Ha|].
  split; [reflexivity|]. split; [reflexivity|].
  exact (flat_image_has_zero_gradient 2 2 1 default_lambda default_beta_max
           (Rank2 []) st_flat1 (F32.of_Z 1) HS ltac:(lia) ltac:(lia)
           Hflat Ha eq_refl eq_refl).
Defined.

(** ** The rolled kernel *)

Section Roll.
Context {A : Type}.
Implicit Types l : list A.

Lemma roll_list_minus_1 l : roll_list (-1) l = drop 1 l ++ take 1 l.
Proof.
  unfold roll_list. destruct l as [|a [|b l]]; [done..|].
  replace (Z.of_nat (length (a :: b :: l)) =? 0)%Z with false
    by (symmetry; apply Z.eqb_neq; simpl; lia).
  replace (Z.to_nat ((- -1) `mod` Z.of_nat (length (a :: b :: l)))) with 1; [done|].
  rewrite Z.mod_small by (simpl; lia). done.
Qed.

Lemma length_roll_list_minus_1 l : length (roll_list (-1) l) = length l.
Proof.
  rewrite roll_list_minus_1, length_app, length_drop, length_take. lia.
Qed.

Lemma lookup_roll_list_minus_1 l i :
  i < length l → roll_list (-1) l !! i = l !! next_index (length l) i.
Proof.
  intros Hi. rewrite roll_list_minus_1. unfold next_index.
  destruct (decide (i + 1 < length l)) as [Hlt|Hge].
  - rewrite lookup_app_l by (rewrite length_drop; lia).
    rewrite lookup_drop. f_equal. lia.
  - rewrite lookup_app_r by (rewrite length_drop; lia).
    rewrite length_drop, lookup_take_lt by lia. f_equal. lia.
Qed.
End Roll.

Lemma has_shape2_spec_embed (psf : tensor2 Z) (H W : nat) :
  has_shape2 H W (spec_embed psf H W).
Proof.
  unfold spec_embed. split; [by rewrite length_fmap, length_seq|].
  apply Forall_fmap, Forall_forall. intros i _. simpl.
  by rewrite length_fmap, length_seq.
Qed.

Lemma shifted_by_one_double_roll {A} (x : tensor2 A) (H W : nat) :
  has_shape2 H W x →
  shifted_by_one H W x (tf_roll (tf_roll x (-1) 0) (-1) 1).
Proof.
  intros [HH Hrows]%has_shape2_lookup. simpl. split.
  - apply has_shape2_lookup. split.
    + by rewrite length_fmap, length_roll_list_minus_1.
    + intros i r. rewrite list_lookup_fmap.
      destruct (roll_list (-1) x !! i) as [r0|] eqn:Hr0; [|done].
      intros [= <-]. rewrite length_roll_list_minus_1.
      apply lookup_lt_Some in Hr0 as Hi.
      rewrite length_roll_list_minus_1 in Hi.
      rewrite lookup_roll_list_minus_1 in Hr0 by done. by eapply Hrows.
  - intros i j Hi Hj. unfold get2.
    rewrite list_lookup_fmap, lookup_roll_list_minus_1, HH by lia.
    destruct (x !! next_index H i) as [r|] eqn:Hr; simpl; [|done].
    pose proof (Hrows _ _ Hr) as HW.
    by rewrite lookup_roll_list_minus_1, HW by lia.
Qed.

Lemma converter_spec {NM : Numerics} (psf : tensor2 Z) (r c : nat)
    (target : ndarray cplx) (H W : nat) (rest : list nat) :
  has_shape2 r c psf → (r = 1 ∧ c = 2) ∨ (r = 2 ∧ c = 1) →
  shape target = H :: W :: rest →
  _fxypsf_to_otf psf target
    = (if bool_decide (r ≤ H ∧ c ≤ W)
       then Ok (fft2 (map2 c_of_Z (rolled_kernel psf H W)))
       else Raise InvalidArgumentError) ∧
  shifted_by_one H W (spec_embed psf H W) (rolled_kernel psf H W).
Proof.
  intros Hpsf Hk Hs. split; [by eapply fxypsf_to_otf_kernel|].
  apply shifted_by_one_double_roll, has_shape2_spec_embed.
Qed.

(** X14: for a derivative kernel of shape (1, 2) or (2, 1) and a target
    whose first two extents are (H, W), the converter returns the
    transform of the padded kernel shifted circularly by one position
    towards the origin on both axes, and raises [InvalidArgumentError]
    when the kernel does not fit (H, W); nothing else of the target is
    read. *)
Theorem converter_transforms_shifted_kernel {NM : Numerics} (psf : tensor2 Z)
    (r c : nat) (target : ndarray cplx) (H W : nat) (rest : list nat) :
  has_shape2 r c psf → (r = 1 ∧ c = 2) ∨ (r = 2 ∧ c = 1) →
  shape target = H :: W :: rest →
  _fxypsf_to_otf psf target
    = (if bool_decide (r ≤ H ∧ c ≤ W)
       then Ok (fft2 (map2 c_of_Z (rolled_kernel psf H W)))
       else Raise InvalidArgumentError) ∧
  shifted_by_one H W (spec_embed psf H W) (rolled_kernel psf H W).
Proof. exact (converter_spec psf r c target H W rest). Qed.

Lemma converter_transforms_shifted_kernel_witness :
  has_shape2 1 2 psf_fx ∧ ((1 = 1 ∧ 2 = 2) ∨ (1 = 2 ∧ 2 = 1)) ∧
  shape target_2x2 = [2; 2; 1] ∧
  (_fxypsf_to_otf (NM:=f32_numerics) psf_fx target_2x2
     = (if bool_decide (1 ≤ 2 ∧ 2 ≤ 2)
        then Ok (fft2 (map2 c_of_Z (rolled_kernel psf_fx 2 2)))
        else Raise InvalidArgumentError) ∧
   shifted_by_one 2 2 (spec_embed psf_fx 2 2) (rolled_kernel psf_fx 2 2)).
Proof.
  assert (has_shape2 1 2 psf_fx) as Hpsf.
  { split; [reflexivity|]. repeat constructor. }
  assert ((1 = 1 ∧ 2 = 2) ∨ (1 = 2 ∧ 2 = 1)) as Hk.
  { left. split; reflexivity. }
  split; [exact Hpsf|]. split; [exact Hk|]. split; [reflexivity|].
  exact (converter_transforms_shifted_kernel (NM:=f32_numerics) psf_fx 1 2
           target_2x2 2 2 [1] Hpsf Hk eq_refl).
Defined.

(** ** The outcomes of the function *)

Lemma compute_t_masked_raises {NM : Numerics} (t : tensor2 real)
    (thr : Py.float) (C : nat) :
  returns (compute_t_masked t thr C)
  ∨ compute_t_masked t thr C = Raise ValueError
  ∨ compute_t_masked t thr C = Raise InvalidArgumentError.
Proof.
  unfold compute_t_masked, SparseTensor, sparse_to_dense, indices_shape,
    mbind, outcome_bind.
  destruct (tf_where _) as [|r rest]; [by right; left|].
  destruct (forallb _ rest); [|by right; left].
  destruct (_ && _); [|by right; left].
  cbn [sp_indices sp_dense_shape sp_values].
  destruct (_ && _); [left; by eexists|by right; right].
Qed.

Lemma l0_image_smoothing_outcomes {NM : Numerics} (fuel : nat)
    (img : ndarray Z) (_lambda kappa beta_max : Py.float) :
  smoothing_outcome (l0_image_smoothing (S fuel) img _lambda kappa beta_max).
Proof.
  unfold smoothing_outcome, l0_image_smoothing, l0_run, mbind, outcome_bind.
  destruct (l0_init img _lambda) as [iv|e|] eqn:Hinit.
  - rewrite while_loop_once. destruct (Py.ltb _ _); [|by left].
    unfold loop_body, py_truediv, mbind, outcome_bind.
    destruct (Py.is_zero _); [by do 3 right|].
    destruct (compute_t_masked_raises
                (compute_t (compute_h (iv_S iv) (iv_M iv))
                   (compute_v (iv_S iv) (iv_N iv)))
                (Py.div _lambda (iv_beta iv)) (iv_C iv))
      as [[m Hm]|[Hm|Hm]]; cbn [st_S st_beta] in *; rewrite Hm.
    + by left.
    + by right; left.
    + by right; right; left.
  - destruct (decide (length (shape img) = 3)) as [Hrank|Hrank].
    + destruct (shape img) as [|N [|M [|C [|d s]]]] eqn:Hs; try done.
      rewrite (l0_init_shape img _lambda N M C Hs) in Hinit.
      destruct (bool_decide _); [done|]. injection Hinit as <-.
      by right; right; left.
    + rewrite l0_init_rank in Hinit by done. injection Hinit as <-.
      by right; left.
  - destruct (decide (length (shape img) = 3)) as [Hrank|Hrank].
    + destruct (shape img) as [|N [|M [|C [|d s]]]] eqn:Hs; try done.
      rewrite (l0_init_shape img _lambda N M C Hs) in Hinit.
      by destruct (bool_decide _).
    + by rewrite l0_init_rank in Hinit.
Qed.

(** X15: whatever the image and the parameters, the function either
    returns [None] or raises [ValueError], [InvalidArgumentError] or
    [ZeroDivisionError]; it never returns a tensor and never fails with
    [IndexError] or [UnboundLocalError]. *)
Theorem smoothing_outcomes {NM : Numerics} (fuel : nat) (img : ndarray Z)
    (_lambda kappa beta_max : Py.float) :
  smoothing_outcome (l0_image_smoothing (S fuel) img _lambda kappa beta_max).
Proof. exact (l0_image_smoothing_outcomes fuel img _lambda kappa beta_max). Qed.
